(** * SousChef recipe transformer: schema validator and workflow controller

    A shallow embedding of [src/app.py]: the pydantic schema
    ([Ingredient], [RecipeStep], [SousChefRecipe]) with its four
    validators, the LangGraph workflow (transform, critique, repair,
    finalize) with its routing function, and the second column of the
    Streamlit page: the guard, [agent.invoke], and what is written for
    the final recipe. *)

From Stdlib Require Import ZArith PrimFloat FloatOps SpecFloat Ascii.
From stdpp Require Import gmap strings list fin_maps.

Set Warnings "-register-all".
Open Scope Z_scope.
Open Scope string_scope.

(** ** Raw data

    What [json.loads] hands to the validator: Python's [None], [bool],
    [int], [float], [str], [list] and [dict] with string keys. *)

Inductive json : Type :=
  | JNull
  | JBool (b : bool)
  | JInt (n : Z)
  | JFloat (f : float)
  | JStr (s : string)
  | JList (l : list json)
  | JObj (m : gmap string json).

(** ** Outcomes

    A validator returns a value, or fails with a pydantic
    [ValidationError] that lists the locations of the offending fields,
    or lets another Python exception escape. *)

Inductive loc_item : Type :=
  | Key (name : string)
  | Index (i : nat).

Definition loc : Type := list loc_item.

Inductive exception : Type :=
  | TypeError
  | ValueError
  | OverflowError
  | KeyError (key : string)
  | ProviderError
  | OutputParserException (errors : list loc)
  | GraphRecursionError.

Inductive outcome (A : Type) : Type :=
  | Ok (a : A)
  | Invalid (errors : list loc)
  | Raised (e : exception).

Arguments Ok {A} a.
Arguments Invalid {A} errors.
Arguments Raised {A} e.

Module Outcome.

Definition bind {A B} (x : outcome A) (k : A -> outcome B) : outcome B :=
  match x with
  | Ok a => k a
  | Invalid errs => Invalid errs
  | Raised e => Raised e
  end.

Definition map {A B} (f : A -> B) (x : outcome A) : outcome B :=
  bind x (fun a => Ok (f a)).

(** pydantic validates every field even after one has failed, and
    reports all the errors together; an exception that is not a
    validation error escapes at once. *)
Definition ap {A B} (f : outcome (A -> B)) (x : outcome A) : outcome B :=
  match f with
  | Raised e => Raised e
  | Ok g =>
      match x with
      | Ok a => Ok (g a)
      | Invalid errs => Invalid errs
      | Raised e => Raised e
      end
  | Invalid errs1 =>
      match x with
      | Ok _ => Invalid errs1
      | Invalid errs2 => Invalid (errs1 ++ errs2)%list
      | Raised e => Raised e
      end
  end.

(** Prefix the locations of the errors of a nested validation. *)
Definition at_loc {A} (i : loc_item) (x : outcome A) : outcome A :=
  match x with
  | Invalid errs => Invalid (List.map (cons i) errs)
  | _ => x
  end.

Definition is_ok {A} (x : outcome A) : bool :=
  match x with Ok _ => true | _ => false end.

End Outcome.

Notation "x >>= k" := (Outcome.bind x k) (at level 50, left associativity).
Notation "f <*> x" := (Outcome.ap f x) (at level 50, left associativity).

(** ** Python operations on raw data *)

(** [needle in hay] on two [str]. *)
Fixpoint contains (needle hay : string) : bool :=
  if String.prefix needle hay then true
  else match hay with
       | EmptyString => false
       | String _ hay' => contains needle hay'
       end.

(** [mapping.get(v, v)] for a dict with string keys: hashing a list or a
    dict raises [TypeError]; a key that is not in the dict returns the
    default, which is [v] itself. *)
Definition get_or_self (mapping : gmap string string) (v : json) : outcome json :=
  match v with
  | JList _ | JObj _ => Raised TypeError
  | JStr s =>
      match mapping !! s with
      | Some t => Ok (JStr t)
      | None => Ok v
      end
  | _ => Ok v
  end.

(** ** The closed vocabularies *)

Inductive Workplace : Type :=
  | Stove | Oven | Blender | Cutting_board | Bowl | Pan.

Inductive Difficulty : Type :=
  | Easy | Medium | Intermediate.

Definition Workplace_values : list (string * Workplace) :=
  [("Stove", Stove); ("Oven", Oven); ("Blender", Blender);
   ("Cutting board", Cutting_board); ("Bowl", Bowl); ("Pan", Pan)].

Definition Difficulty_values : list (string * Difficulty) :=
  [("Easy", Easy); ("Medium", Medium); ("Intermediate", Intermediate)].

Fixpoint assoc {A} (s : string) (l : list (string * A)) : option A :=
  match l with
  | [] => None
  | (k, a) :: l' => if String.eqb s k then Some a else assoc s l'
  end.

(** [Literal[...]] of strings: the input must be one of the listed
    strings. *)
Definition validate_literal {A} (values : list (string * A)) (x : json) : outcome A :=
  match x with
  | JStr s =>
      match assoc s values with
      | Some a => Ok a
      | None => Invalid [[]]
      end
  | _ => Invalid [[]]
  end.

Definition Workplace_str (w : Workplace) : string :=
  match w with
  | Stove => "Stove" | Oven => "Oven" | Blender => "Blender"
  | Cutting_board => "Cutting board" | Bowl => "Bowl" | Pan => "Pan"
  end.

Definition Difficulty_str (d : Difficulty) : string :=
  match d with
  | Easy => "Easy" | Medium => "Medium" | Intermediate => "Intermediate"
  end.

(** ** Numbers

    A field annotated [float] holds a Python [float] once it has been
    validated; a default is stored as it is written in the class body,
    and the defaults of the three nutrition fields are the [int] [0]. *)

Inductive number : Type :=
  | PyInt (n : Z)
  | PyFloat (f : float).

(** [float(n)] on an [int]: the nearest float, ties to even. An [int]
    beyond the range of the floats rounds to an infinity here; Python
    raises [OverflowError] on it. *)
Definition float_of_int (n : Z) : float :=
  SF2Prim (binary_normalize prec emax n 0 false).

(** The integer part of a finite float. *)
Definition truncate (x : float) : Z :=
  match Prim2SF x with
  | S754_finite s m e =>
      let magnitude :=
        if (0 <=? e)%Z then (Z.pos m * 2 ^ e)%Z else (Z.pos m / 2 ^ (- e))%Z in
      if s then (- magnitude)%Z else magnitude
  | _ => 0
  end.

(** [bool(x)] on a [float]: every float but the two zeros is true, NaN
    too. *)
Definition float_truth (x : float) : bool := negb (PrimFloat.eqb x 0).

(** ** Field types

    pydantic validates in lax mode: a value of the annotated type is
    taken as it is, an [int] given for a [float] is converted, and a
    scalar of another type may be coerced (a numeric string to [int],
    ...). These other coercions belong to pydantic, not to this
    program; the development is parametric in them. [None], lists and
    dicts are never coerced to a scalar. *)

Class LaxMode : Type := {
  coerce_str : json -> option string;
  coerce_int : json -> option Z;
  coerce_float : json -> option float;
  coerce_bool : json -> option bool
}.

Definition coerced {A} (c : json -> option A) (x : json) : outcome A :=
  match x with
  | JNull | JList _ | JObj _ => Invalid [[]]
  | _ => match c x with Some a => Ok a | None => Invalid [[]] end
  end.

Section Schema.

Context {lax : LaxMode}.

Definition validate_str (x : json) : outcome string :=
  match x with JStr s => Ok s | _ => coerced coerce_str x end.

Definition validate_int (x : json) : outcome Z :=
  match x with JInt n => Ok n | _ => coerced coerce_int x end.

(** [float]: a float is taken as it is, NaN and the infinities too; an
    [int] becomes [float(n)]; what pydantic does with an [int] beyond
    the range of the floats is left to it. *)
Definition validate_float (x : json) : outcome float :=
  match x with
  | JFloat f => Ok f
  | JInt n =>
      if is_infinity (float_of_int n) then coerced coerce_float x
      else Ok (float_of_int n)
  | _ => coerced coerce_float x
  end.

(** A [float] field whose default may be an [int]: what validation
    stores is a [float]. *)
Definition validate_number (x : json) : outcome number :=
  Outcome.map PyFloat (validate_float x).

Definition validate_bool (x : json) : outcome bool :=
  match x with JBool b => Ok b | _ => coerced coerce_bool x end.

(** [Optional[T]] *)
Definition validate_optional {A} (val : json -> outcome A) (x : json)
  : outcome (option A) :=
  match x with
  | JNull => Ok None
  | _ => Outcome.map Some (val x)
  end.

(** [List[T]]: every item is validated, errors are located by index. *)
Fixpoint validate_items {A} (val : json -> outcome A) (i : nat) (l : list json)
  : outcome (list A) :=
  match l with
  | [] => Ok []
  | x :: l' =>
      Ok cons <*> Outcome.at_loc (Index i) (val x) <*> validate_items val (S i) l'
  end.

Definition validate_list {A} (val : json -> outcome A) (x : json)
  : outcome (list A) :=
  match x with
  | JList l => validate_items val 0 l
  | _ => Invalid [[]]
  end.

(** A field without default: a missing key is an error at that key. *)
Definition required {A} (name : string) (val : json -> outcome A)
    (v : gmap string json) : outcome A :=
  match v !! name with
  | Some x => Outcome.at_loc (Key name) (val x)
  | None => Invalid [[Key name]]
  end.

(** A field with a default: the default is used as it is. *)
Definition defaulted {A} (name : string) (default : A) (val : json -> outcome A)
    (v : gmap string json) : outcome A :=
  match v !! name with
  | Some x => Outcome.at_loc (Key name) (val x)
  | None => Ok default
  end.

(** *** Ingredient *)

Record Ingredient : Type := {
  name_en : string;
  name_nl : string;
  quantity : option string
}.

Definition validate_Ingredient (x : json) : outcome Ingredient :=
  match x with
  | JObj v =>
      Ok Build_Ingredient
        <*> required "name_en" validate_str v
        <*> required "name_nl" validate_str v
        <*> defaulted "quantity" (Some "to taste") (validate_optional validate_str) v
  | _ => Invalid [[]]
  end.

(** *** RecipeStep *)

Record RecipeStep : Type := {
  display_name_en : string;
  display_name_nl : string;
  action_en : string;
  action_nl : string;
  instructions_en : string;
  instructions_nl : string;
  workplace : Workplace;
  has_timer : bool;
  timer_minutes : option float;
  is_first_appearance : bool
}.

Definition workplace_mapping : gmap string string :=
  list_to_map
    [("Plate", "Bowl");
     ("Wok", "Stove");
     ("Pot", "Stove");
     ("Stock pot", "Stove");
     ("Stock Pot", "Stove");
     ("Sink", "Bowl");
     ("Counter", "Cutting board");
     ("Table", "Cutting board");
     ("Grill", "Stove");
     ("Microwave", "Oven");
     ("Chopping board", "Cutting board");
     ("Chopping Board", "Cutting board");
     ("Toaster", "Stove");
     ("Worktop", "Cutting board");
     ("Kitchen counter", "Cutting board");
     ("Loaf pan", "Oven");
     ("Loaf Pan", "Oven")].

Definition fix_workplace (v : json) : outcome json :=
  get_or_self workplace_mapping v.

(** The field [workplace]: the [mode="before"] validator, then the
    [Literal]. *)
Definition validate_workplace (x : json) : outcome Workplace :=
  fix_workplace x >>= validate_literal Workplace_values.

Definition validate_RecipeStep (x : json) : outcome RecipeStep :=
  match x with
  | JObj v =>
      Ok Build_RecipeStep
        <*> required "display_name_en" validate_str v
        <*> required "display_name_nl" validate_str v
        <*> required "action_en" validate_str v
        <*> required "action_nl" validate_str v
        <*> required "instructions_en" validate_str v
        <*> required "instructions_nl" validate_str v
        <*> required "workplace" validate_workplace v
        <*> required "has_timer" validate_bool v
        <*> defaulted "timer_minutes" None (validate_optional validate_float) v
        <*> required "is_first_appearance" validate_bool v
  | _ => Invalid [[]]
  end.

(** *** SousChefRecipe *)

Record SousChefRecipe : Type := {
  generic_name_en : string;
  generic_name_nl : string;
  recipe_name_en : string;
  recipe_name_nl : string;
  description_en : string;
  description_nl : string;
  difficulty : Difficulty;
  servings : Z;
  prep_time_minutes : Z;
  cook_time_minutes : Z;
  calories_per_person : option Z;
  protein_g : option number;
  carbs_g : option number;
  fat_g : option number;
  ingredients : list Ingredient;
  steps : list RecipeStep
}.

Definition renames : list (string * string) :=
  [("calories_per_serving", "calories_per_person");
   ("protein_g_per_serving", "protein_g");
   ("carbs_g_per_serving", "carbs_g");
   ("fat_g_per_serving", "fat_g")].

(** One turn of the loop of [fix_field_names]:
    [if old in v and new not in v: v[new] = v.pop(old)]. *)
Definition rename_key (v : gmap string json) (r : string * string)
  : gmap string json :=
  let '(old, new) := r in
  match v !! old, v !! new with
  | Some x, None => <[new := x]> (delete old v)
  | _, _ => v
  end.

Definition fix_field_names (v : gmap string json) : gmap string json :=
  foldl rename_key v renames.

Definition difficulty_mapping : gmap string string :=
  list_to_map
    [("Moderate", "Medium");
     ("Hard", "Intermediate");
     ("Advanced", "Intermediate");
     ("Beginner", "Easy");
     ("Simple", "Easy")].

Definition fix_difficulty (v : json) : outcome json :=
  get_or_self difficulty_mapping v.

Definition validate_difficulty (x : json) : outcome Difficulty :=
  fix_difficulty x >>= validate_literal Difficulty_values.

Definition set_difficulty (d : Difficulty) (r : SousChefRecipe) : SousChefRecipe :=
  {| generic_name_en := generic_name_en r;
     generic_name_nl := generic_name_nl r;
     recipe_name_en := recipe_name_en r;
     recipe_name_nl := recipe_name_nl r;
     description_en := description_en r;
     description_nl := description_nl r;
     difficulty := d;
     servings := servings r;
     prep_time_minutes := prep_time_minutes r;
     cook_time_minutes := cook_time_minutes r;
     calories_per_person := calories_per_person r;
     protein_g := protein_g r;
     carbs_g := carbs_g r;
     fat_g := fat_g r;
     ingredients := ingredients r;
     steps := steps r |}.

Definition fix_difficulty_by_steps (self : SousChefRecipe) : SousChefRecipe :=
  let step_count := Z.of_nat (length (steps self)) in
  if (step_count <=? 6)%Z then set_difficulty Easy self
  else if (step_count <=? 11)%Z then set_difficulty Medium self
  else set_difficulty Intermediate self.

(** The fields, in the order of the class body. A default is not
    validated: the default [0] of the three float fields stays the
    [int] it is. *)
Definition validate_fields (v : gmap string json) : outcome SousChefRecipe :=
  Ok Build_SousChefRecipe
    <*> required "generic_name_en" validate_str v
    <*> required "generic_name_nl" validate_str v
    <*> required "recipe_name_en" validate_str v
    <*> required "recipe_name_nl" validate_str v
    <*> required "description_en" validate_str v
    <*> required "description_nl" validate_str v
    <*> required "difficulty" validate_difficulty v
    <*> required "servings" validate_int v
    <*> required "prep_time_minutes" validate_int v
    <*> required "cook_time_minutes" validate_int v
    <*> defaulted "calories_per_person" (Some 0) (validate_optional validate_int) v
    <*> defaulted "protein_g" (Some (PyInt 0)) (validate_optional validate_number) v
    <*> defaulted "carbs_g" (Some (PyInt 0)) (validate_optional validate_number) v
    <*> defaulted "fat_g" (Some (PyInt 0)) (validate_optional validate_number) v
    <*> required "ingredients" (validate_list validate_Ingredient) v
    <*> required "steps" (validate_list validate_RecipeStep) v.

(** [SousChefRecipe.model_validate]: the [mode="before"] model
    validator, the fields, the [mode="after"] model validator. *)
Definition model_validate (v : gmap string json) : outcome SousChefRecipe :=
  Outcome.map fix_difficulty_by_steps (validate_fields (fix_field_names v)).

(** *** Serialisation: [model_dump] *)

Definition dump_optional {A} (dump : A -> json) (o : option A) : json :=
  match o with Some a => dump a | None => JNull end.

Definition dump_number (x : number) : json :=
  match x with PyInt n => JInt n | PyFloat f => JFloat f end.

Definition dump_Ingredient (i : Ingredient) : json :=
  JObj (list_to_map
    [("name_en", JStr (name_en i));
     ("name_nl", JStr (name_nl i));
     ("quantity", dump_optional JStr (quantity i))]).

Definition dump_RecipeStep (s : RecipeStep) : json :=
  JObj (list_to_map
    [("display_name_en", JStr (display_name_en s));
     ("display_name_nl", JStr (display_name_nl s));
     ("action_en", JStr (action_en s));
     ("action_nl", JStr (action_nl s));
     ("instructions_en", JStr (instructions_en s));
     ("instructions_nl", JStr (instructions_nl s));
     ("workplace", JStr (Workplace_str (workplace s)));
     ("has_timer", JBool (has_timer s));
     ("timer_minutes", dump_optional JFloat (timer_minutes s));
     ("is_first_appearance", JBool (is_first_appearance s))]).

Definition model_dump (r : SousChefRecipe) : gmap string json :=
  list_to_map
    [("generic_name_en", JStr (generic_name_en r));
     ("generic_name_nl", JStr (generic_name_nl r));
     ("recipe_name_en", JStr (recipe_name_en r));
     ("recipe_name_nl", JStr (recipe_name_nl r));
     ("description_en", JStr (description_en r));
     ("description_nl", JStr (description_nl r));
     ("difficulty", JStr (Difficulty_str (difficulty r)));
     ("servings", JInt (servings r));
     ("prep_time_minutes", JInt (prep_time_minutes r));
     ("cook_time_minutes", JInt (cook_time_minutes r));
     ("calories_per_person", dump_optional JInt (calories_per_person r));
     ("protein_g", dump_optional dump_number (protein_g r));
     ("carbs_g", dump_optional dump_number (carbs_g r));
     ("fat_g", dump_optional dump_number (fat_g r));
     ("ingredients", JList (List.map dump_Ingredient (ingredients r)));
     ("steps", JList (List.map dump_RecipeStep (steps r)))].

End Schema.

(** A pydantic that coerces nothing: every input of the annotated type
    is validated the same way under any other [LaxMode]. *)
Definition no_coercion : LaxMode :=
  {| coerce_str := fun _ => None;
     coerce_int := fun _ => None;
     coerce_float := fun _ => None;
     coerce_bool := fun _ => None |}.

Module Examples.

Definition step (wp : json) : gmap string json :=
  list_to_map
    [("display_name_en", JStr "Onion");
     ("display_name_nl", JStr "Ui");
     ("action_en", JStr "Peel and chop");
     ("action_nl", JStr "Schillen en snijden");
     ("instructions_en", JStr "Peel the onion and chop it.");
     ("instructions_nl", JStr "Schil de ui en snijd hem.");
     ("workplace", wp);
     ("has_timer", JBool false);
     ("timer_minutes", JNull);
     ("is_first_appearance", JBool true)].

Definition recipe (diff : json) (servings : json) (steps : list json)
  : gmap string json :=
  list_to_map
    [("generic_name_en", JStr "Chicken Rice");
     ("generic_name_nl", JStr "Kip Rijst");
     ("recipe_name_en", JStr "One-pan Chicken and Garlic Rice");
     ("recipe_name_nl", JStr "Kip met knoflookrijst");
     ("description_en", JStr "Easy and tasty.");
     ("description_nl", JStr "Makkelijk en lekker.");
     ("difficulty", diff);
     ("servings", servings);
     ("prep_time_minutes", JInt 10);
     ("cook_time_minutes", JInt 25);
     ("calories_per_serving", JInt 550);
     ("ingredients",
      JList [JObj (list_to_map [("name_en", JStr "Onion"); ("name_nl", JStr "Ui")])]);
     ("steps", JList steps)].

(** What validation makes of [recipe d (JInt n) [JObj (step wp)]] when
    [wp] is, or is mapped to, [w]. *)
Definition cooked_step (w : Workplace) : RecipeStep :=
  {| display_name_en := "Onion";
     display_name_nl := "Ui";
     action_en := "Peel and chop";
     action_nl := "Schillen en snijden";
     instructions_en := "Peel the onion and chop it.";
     instructions_nl := "Schil de ui en snijd hem.";
     workplace := w;
     has_timer := false;
     timer_minutes := None;
     is_first_appearance := true |}.

Definition cooked (n : Z) (w : Workplace) : SousChefRecipe :=
  {| generic_name_en := "Chicken Rice";
     generic_name_nl := "Kip Rijst";
     recipe_name_en := "One-pan Chicken and Garlic Rice";
     recipe_name_nl := "Kip met knoflookrijst";
     description_en := "Easy and tasty.";
     description_nl := "Makkelijk en lekker.";
     difficulty := Easy;
     servings := n;
     prep_time_minutes := 10;
     cook_time_minutes := 25;
     calories_per_person := Some 550;
     protein_g := Some (PyInt 0);
     carbs_g := Some (PyInt 0);
     fat_g := Some (PyInt 0);
     ingredients :=
       [{| name_en := "Onion"; name_nl := "Ui"; quantity := Some "to taste" |}];
     steps := [cooked_step w] |}.

(** A record whose numbers are all out of the ranges of the data
    model, and what validation makes of it. *)
Definition out_of_range : gmap string json :=
  list_to_map
    [("generic_name_en", JStr "Chicken Rice");
     ("generic_name_nl", JStr "Kip Rijst");
     ("recipe_name_en", JStr "One-pan Chicken and Garlic Rice");
     ("recipe_name_nl", JStr "Kip met knoflookrijst");
     ("description_en", JStr "Easy and tasty.");
     ("description_nl", JStr "Makkelijk en lekker.");
     ("difficulty", JStr "Easy");
     ("servings", JInt 0);
     ("prep_time_minutes", JInt (-10));
     ("cook_time_minutes", JInt (-25));
     ("calories_per_person", JInt (-550));
     ("protein_g", JFloat (-35.5)%float);
     ("carbs_g", JFloat (-45)%float);
     ("fat_g", JFloat (-18)%float);
     ("ingredients", JList []);
     ("steps", JList [])].

Definition cooked_out_of_range : SousChefRecipe :=
  {| generic_name_en := "Chicken Rice";
     generic_name_nl := "Kip Rijst";
     recipe_name_en := "One-pan Chicken and Garlic Rice";
     recipe_name_nl := "Kip met knoflookrijst";
     description_en := "Easy and tasty.";
     description_nl := "Makkelijk en lekker.";
     difficulty := Easy;
     servings := 0;
     prep_time_minutes := -10;
     cook_time_minutes := -25;
     calories_per_person := Some (-550);
     protein_g := Some (PyFloat (-35.5));
     carbs_g := Some (PyFloat (-45));
     fat_g := Some (PyFloat (-18));
     ingredients := [];
     steps := [] |}.

End Examples.

(** ** The exports

    The names of the two files the page offers for download, the rows
    it hands to the table of steps, and the minutes it shows in the
    title of a step. *)

(** [str.lower] on a character of ASCII text: the letters [A] to [Z]
    are moved to [a] to [z]. *)
Definition lower_char (c : ascii) : ascii :=
  let n := nat_of_ascii c in
  if (65 <=? n)%nat && (n <=? 90)%nat then ascii_of_nat (n + 32) else c.

Fixpoint lower (s : string) : string :=
  match s with
  | EmptyString => EmptyString
  | String c s' => String (lower_char c) (lower s')
  end.

(** [s.replace(old, new)] for two strings of one character. *)
Fixpoint replace_char (old new : ascii) (s : string) : string :=
  match s with
  | EmptyString => EmptyString
  | String c s' =>
      String (if Ascii.eqb c old then new else c) (replace_char old new s')
  end.

(** Text on which [lower] is Python's [str.lower]. *)
Fixpoint is_ascii (s : string) : bool :=
  match s with
  | EmptyString => true
  | String c s' => (nat_of_ascii c <? 128)%nat && is_ascii s'
  end.

Definition is_upper (c : ascii) : bool :=
  (65 <=? nat_of_ascii c)%nat && (nat_of_ascii c <=? 90)%nat.

Definition file_stem (recipe : SousChefRecipe) : string :=
  replace_char " "%char "_"%char (lower (generic_name_en recipe)).

Definition json_file_name (recipe : SousChefRecipe) : string :=
  file_stem recipe ++ ".json".

Definition csv_file_name (recipe : SousChefRecipe) : string :=
  file_stem recipe ++ ".csv".

(** [enumerate(l, start)] *)
Fixpoint enumerate {A} (start : Z) (l : list A) : list (Z * A) :=
  match l with
  | [] => []
  | a :: l' => (start, a) :: enumerate (start + 1) l'
  end.

Record steps_row : Type := {
  row_step : Z;
  row_display_name_en : string;
  row_action_en : string;
  row_instructions_en : string;
  row_workplace : string;
  row_has_timer : bool;
  row_timer_minutes : option float
}.

Definition steps_row_of (i : Z) (s : RecipeStep) : steps_row :=
  {| row_step := i + 1;
     row_display_name_en := display_name_en s;
     row_action_en := action_en s;
     row_instructions_en := instructions_en s;
     row_workplace := Workplace_str (workplace s);
     row_has_timer := has_timer s;
     row_timer_minutes := timer_minutes s |}.

(** The list the page makes the [DataFrame] of. *)
Definition steps_rows (recipe : SousChefRecipe) : list steps_row :=
  (fun '(i, s) => steps_row_of i s) <$> enumerate 0 (steps recipe).

(** The steps with the numbers of their expanders on the page. *)
Definition numbered_steps (recipe : SousChefRecipe) : list (Z * RecipeStep) :=
  enumerate 1 (steps recipe).

(** [int(x)] on a [float]: the integer part; [ValueError] on NaN,
    [OverflowError] on an infinity. *)
Definition int_of_float (x : float) : exception + Z :=
  if is_nan x then inl ValueError
  else if is_infinity x then inl OverflowError
  else inr (truncate x).

(** The minutes in the title of a step:
    [int(step.timer_minutes) if step.has_timer and step.timer_minutes],
    and nothing otherwise. [None] and the two zeros are false. *)
Definition timer_shown (step : RecipeStep) : exception + option Z :=
  match has_timer step, timer_minutes step with
  | true, Some t =>
      if float_truth t then
        match int_of_float t with
        | inl e => inl e
        | inr minutes => inr (Some minutes)
        end
      else inr None
  | _, _ => inr None
  end.

(** ** What the page shows

    The Streamlit calls write one after the other, and what is written
    stays on the page when a later statement raises: the [st.error] of
    the [except] clause then comes under it. Streamlit, pandas and
    [json.dumps] are taken to return on what this script gives them; of
    the expressions of the script itself, [int] can raise. A [widget]
    is all that the second column shows after one run of the script. *)

(** An expander of the list of steps: its number, its step, and the
    minutes in its title. *)
Record expander : Type := {
  expander_number : Z;
  expander_step : RecipeStep;
  expander_minutes : option Z
}.

(** The two download buttons: the data [json.dumps] is given, the rows
    of the table, and the names of the two files. *)
Record downloads : Type := {
  json_data : gmap string json;
  json_name : string;
  csv_rows : list steps_row;
  csv_name : string
}.

Inductive widget : Type :=
  (** [st.success] with the summary of the recipe, the expanders
      written under it, and under them the download buttons, or the
      [st.error] of the [except] clause when writing a step raised *)
  | st_recipe (recipe : SousChefRecipe) (expanders : list expander)
      (closing : exception + downloads)
  (** [st.error] alone: nothing was written before the exception *)
  | st_error (e : exception)
  | st_warning (msg : string)
  | st_info (msg : string).

(** The loop over the numbered steps: an expander for each, up to the
    step whose title raises. *)
Fixpoint st_expanders (l : list (Z * RecipeStep))
  : list expander * option exception :=
  match l with
  | [] => ([], None)
  | (i, step) :: l' =>
      match timer_shown step with
      | inl e => ([], Some e)
      | inr minutes =>
          let '(shown, failure) := st_expanders l' in
          ({| expander_number := i; expander_step := step;
              expander_minutes := minutes |} :: shown, failure)
      end
  end.

(** The statements of the [try] after the run: the summary, the
    expanders, the exports. The recipe is also stored in
    [st.session_state], which the script never reads. *)
Definition st_written (recipe : SousChefRecipe) : widget :=
  let '(shown, failure) := st_expanders (numbered_steps recipe) in
  st_recipe recipe shown
    match failure with
    | Some e => inl e
    | None =>
        inr {| json_data := model_dump recipe;
               json_name := json_file_name recipe;
               csv_rows := steps_rows recipe;
               csv_name := csv_file_name recipe |}
    end.

(** ** The workflow

    The LLM is an external collaborator: what it answers may depend on
    the prompt and on everything it was asked before. Every call is
    recorded with its result, so that a run can be inspected.

    A prompt is one of the three templates with the values of its
    placeholders; the recipe stands for its [model_dump_json]. *)

Inductive prompt : Type :=
  | transform_prompt (raw_recipe : string)
  | critique_prompt (recipe : SousChefRecipe)
  | repair_prompt (recipe : SousChefRecipe) (critique : string).

Inductive event : Type :=
  | Generation (p : prompt) (result : outcome SousChefRecipe)
  | Completion (p : prompt) (result : outcome string).

Record LLM : Type := {
  (** [llm.invoke(prompt).content] *)
  complete : list event -> prompt -> exception + string;
  (** the JSON object of a [json_mode] answer *)
  generate_json : list event -> prompt -> exception + gmap string json
}.

Definition M (A : Type) : Type := list event -> outcome A * list event.

Definition ret {A} (a : A) : M A := fun log => (Ok a, log).

Definition raise {A} (e : exception) : M A := fun log => (Raised e, log).

Definition and_then {A B} (m : M A) (k : A -> M B) : M B :=
  fun log =>
    match m log with
    | (Ok a, log') => k a log'
    | (Invalid errs, log') => (Invalid errs, log')
    | (Raised e, log') => (Raised e, log')
    end.

#[export] Instance M_ret : MRet M := @ret.
#[export] Instance M_bind : MBind M := fun A B k m => and_then m k.

(** [try: m except Exception as e: handler(e)] *)
Definition try_except {A} (m : M A) (handler : exception -> M A) : M A :=
  fun log =>
    match m log with
    | (Ok a, log') => (Ok a, log')
    | (Invalid errs, log') => handler (OutputParserException errs) log'
    | (Raised e, log') => handler e log'
    end.

(** [d[key]] on a [total=False] TypedDict. *)
Definition getitem {A} (key : string) (field : option A) : M A :=
  match field with
  | Some a => ret a
  | None => raise (KeyError key)
  end.

Record AgentState : Type := {
  raw_recipe : option string;
  parsed_recipe : option SousChefRecipe;
  critique : option string;
  final_recipe : option SousChefRecipe;
  attempts : option Z
}.

(** The keys a node returns replace those of the state. *)
Definition merge (state update : AgentState) : AgentState :=
  {| raw_recipe := from_option Some (raw_recipe state) (raw_recipe update);
     parsed_recipe := from_option Some (parsed_recipe state) (parsed_recipe update);
     critique := from_option Some (critique state) (critique update);
     final_recipe := from_option Some (final_recipe state) (final_recipe update);
     attempts := from_option Some (attempts state) (attempts update) |}.

Definition START : string := "__start__".

Definition END : string := "__end__".

(** The number of steps LangGraph allows a run when [invoke] is given no
    other limit. *)
Definition recursion_limit : nat := 25.

Section Workflow.

Context {lax : LaxMode} (llm : LLM).

(** [llm.invoke(prompt)] *)
Definition llm_invoke (p : prompt) : M string :=
  fun log =>
    let result :=
      match complete llm log p with
      | inl e => Raised e
      | inr content => Ok content
      end in
    (result, (log ++ [Completion p result])%list).

(** [llm.with_structured_output(SousChefRecipe, method="json_mode")]:
    the JSON object of the answer goes through [model_validate]; a
    validation error becomes an [OutputParserException]. *)
Definition structured_llm_invoke (p : prompt) : M SousChefRecipe :=
  fun log =>
    let result :=
      match generate_json llm log p with
      | inl e => Raised e
      | inr v =>
          match model_validate v with
          | Ok recipe => Ok recipe
          | Invalid errs => Raised (OutputParserException errs)
          | Raised e => Raised e
          end
      end in
    (result, (log ++ [Generation p result])%list).

Definition transform_node (state : AgentState) : M AgentState :=
  raw ← getitem "raw_recipe" (raw_recipe state);
  recipe ← structured_llm_invoke (transform_prompt raw);
  ret {| raw_recipe := None; parsed_recipe := Some recipe; critique := None;
         final_recipe := None; attempts := Some 0 |}.

Definition critique_node (state : AgentState) : M AgentState :=
  recipe ← getitem "parsed_recipe" (parsed_recipe state);
  content ← llm_invoke (critique_prompt recipe);
  ret {| raw_recipe := None; parsed_recipe := None; critique := Some content;
         final_recipe := None; attempts := None |}.

Definition repair_node (state : AgentState) : M AgentState :=
  recipe ← getitem "parsed_recipe" (parsed_recipe state);
  crit ← getitem "critique" (critique state);
  fixed ← structured_llm_invoke (repair_prompt recipe crit);
  ret {| raw_recipe := None; parsed_recipe := Some fixed; critique := None;
         final_recipe := None;
         attempts := Some (default 0 (attempts state) + 1) |}.

Definition finalize_node (state : AgentState) : M AgentState :=
  recipe ← getitem "parsed_recipe" (parsed_recipe state);
  ret {| raw_recipe := None; parsed_recipe := None; critique := None;
         final_recipe := Some recipe; attempts := None |}.

Definition should_repair_or_finalize (state : AgentState) : string :=
  let critique := default "" (critique state) in
  let attempts := default 0 (attempts state) in
  if contains "APPROVED" critique then "finalize"
  else if (attempts >=? 2)%Z then "finalize"
  else "repair".

(** *** The graph *)

Definition nodes : list (string * (AgentState -> M AgentState)) :=
  [("transform", transform_node);
   ("critique", critique_node);
   ("repair", repair_node);
   ("finalize", finalize_node)].

Definition edges : list (string * string) :=
  [(START, "transform");
   ("transform", "critique");
   ("repair", "critique");
   ("finalize", END)].

Definition conditional_edges
  : list (string * ((AgentState -> string) * list (string * string))) :=
  [("critique",
    (should_repair_or_finalize,
     [("repair", "repair"); ("finalize", "finalize")]))].

(** The node that runs after [current]. *)
Definition successor (current : string) (state : AgentState) : M string :=
  match assoc current conditional_edges with
  | Some (path, path_map) =>
      match assoc (path state) path_map with
      | Some next => ret next
      | None => raise (KeyError (path state))
      end
  | None =>
      match assoc current edges with
      | Some next => ret next
      | None => ret END
      end
  end.

(** One node runs per step; the run stops at [END], or with
    [GraphRecursionError] when the steps are used up. *)
Fixpoint run (steps_left : nat) (current : string) (state : AgentState)
  : M AgentState :=
  if String.eqb current END then ret state
  else
    match steps_left with
    | O => raise GraphRecursionError
    | S steps_left' =>
        match assoc current nodes with
        | None => raise (KeyError current)
        | Some node =>
            update ← node state;
            let state' := merge state update in
            next ← successor current state';
            run steps_left' next state'
        end
    end.

(** [agent.invoke(input)] *)
Definition agent_invoke (input : AgentState) : M AgentState :=
  first ← successor START input;
  run recursion_limit first input.

(** *** The page *)

(** The body of the second column, for one run of the script: the
    state of the button and the content of the text area. What the
    [try] writes once it has the final recipe, the [st.error] of an
    exception of [int] included, is [st_written]; an exception of the
    run, or a run without a final recipe, leaves the [st.error]
    alone. *)
Definition page (transform_btn : bool) (recipe_input : string) : M widget :=
  if transform_btn && negb (String.eqb recipe_input "") then
    try_except
      (result ← agent_invoke
         {| raw_recipe := Some recipe_input; parsed_recipe := None;
            critique := None; final_recipe := None; attempts := None |};
       recipe ← getitem "final_recipe" (final_recipe result);
       ret (st_written recipe))
      (fun e => ret (st_error e))
  else if transform_btn && String.eqb recipe_input "" then
    ret (st_warning "Please paste a recipe first!")
  else
    ret (st_info "Paste a recipe on the left and click Transform").

End Workflow.

(** *** Reading a log *)

Definition is_generation (e : event) : bool :=
  match e with Generation _ _ => true | _ => false end.

Definition is_repair (e : event) : bool :=
  match e with Generation (repair_prompt _ _) _ => true | _ => false end.

Definition is_transform (e : event) : bool :=
  match e with Generation (transform_prompt _) _ => true | _ => false end.

Definition generations (log : list event) : nat :=
  length (List.filter is_generation log).

Definition repairs (log : list event) : nat :=
  length (List.filter is_repair log).

Definition transforms (log : list event) : nat :=
  length (List.filter is_transform log).

(** The recipe of the last generation that returned one. *)
Fixpoint last_candidate (log : list event) : option SousChefRecipe :=
  match log with
  | [] => None
  | e :: log' =>
      match last_candidate log', e with
      | Some r, _ => Some r
      | None, Generation _ (Ok r) => Some r
      | None, _ => None
      end
  end.

(** A critique that contains the word. *)
Definition approves (e : event) : bool :=
  match e with
  | Completion _ (Ok content) => contains "APPROVED" content
  | _ => false
  end.

(** No critique of the log approves. *)
Definition never_approved (log : list event) : Prop :=
  Forall (fun e => approves e = false) log.

(** A call that raised. *)
Definition failed (e : event) : bool :=
  match e with
  | Generation _ (Ok _) | Completion _ (Ok _) => false
  | _ => true
  end.

Definition no_failure (log : list event) : Prop :=
  Forall (fun e => failed e = false) log.

(** ** Vocabulary of the properties *)

Definition hashable (v : json) : bool :=
  match v with
  | JList _ | JObj _ => false
  | _ => true
  end.

(** [v] is a key of the table. *)
Definition in_table (mapping : gmap string string) (v : json) : Prop :=
  exists s, v = JStr s /\ is_Some (mapping !! s).

(** [v] is one of the strings of the [Literal]. *)
Definition in_vocabulary {A} (values : list (string * A)) (v : json) : Prop :=
  exists s, v = JStr s /\ is_Some (assoc s values).

(** The old and the new names of [renames]. *)
Definition aliases : list string := fst <$> renames.

Definition canonicals : list string := snd <$> renames.

Definition set_timer (b : bool) (t : option float) (s : RecipeStep) : RecipeStep :=
  {| display_name_en := display_name_en s;
     display_name_nl := display_name_nl s;
     action_en := action_en s;
     action_nl := action_nl s;
     instructions_en := instructions_en s;
     instructions_nl := instructions_nl s;
     workplace := workplace s;
     has_timer := b;
     timer_minutes := t;
     is_first_appearance := is_first_appearance s |}.

(** The rule of the difficulty: few steps are easy, many are not. *)
Definition difficulty_follows_steps (r : SousChefRecipe) : Prop :=
  let n := length (steps r) in
  ((n <= 6)%nat -> difficulty r = Easy) /\
  ((7 <= n <= 11)%nat -> difficulty r = Medium) /\
  ((12 <= n)%nat -> difficulty r = Intermediate).

(** Two mappings with the same values under every key that is not an
    alias. *)
Definition agree (v1 v2 : gmap string json) : Prop :=
  forall k, k ∉ aliases -> v1 !! k = v2 !! k.

Definition set_numbers (n p c : Z) (r : SousChefRecipe) : SousChefRecipe :=
  {| generic_name_en := generic_name_en r;
     generic_name_nl := generic_name_nl r;
     recipe_name_en := recipe_name_en r;
     recipe_name_nl := recipe_name_nl r;
     description_en := description_en r;
     description_nl := description_nl r;
     difficulty := difficulty r;
     servings := n;
     prep_time_minutes := p;
     cook_time_minutes := c;
     calories_per_person := calories_per_person r;
     protein_g := protein_g r;
     carbs_g := carbs_g r;
     fat_g := fat_g r;
     ingredients := ingredients r;
     steps := steps r |}.

Definition set_nutrition (cal : option Z) (prot carb fat : option float)
    (r : SousChefRecipe) : SousChefRecipe :=
  {| generic_name_en := generic_name_en r;
     generic_name_nl := generic_name_nl r;
     recipe_name_en := recipe_name_en r;
     recipe_name_nl := recipe_name_nl r;
     description_en := description_en r;
     description_nl := description_nl r;
     difficulty := difficulty r;
     servings := servings r;
     prep_time_minutes := prep_time_minutes r;
     cook_time_minutes := cook_time_minutes r;
     calories_per_person := cal;
     protein_g := PyFloat <$> prot;
     carbs_g := PyFloat <$> carb;
     fat_g := PyFloat <$> fat;
     ingredients := ingredients r;
     steps := steps r |}.

Definition int_fields : list string :=
  ["servings"; "prep_time_minutes"; "cook_time_minutes"].

(** [None], a list or a dict: what no coercion turns into a number. *)
Definition never_a_number (x : json) : bool :=
  match x with
  | JNull | JList _ | JObj _ => true
  | _ => false
  end.

(** *** Equality of records

    Python's [==] on what two records hold: numbers are compared by
    value, an [int] with a [float] too, and NaN equals no float, itself
    included; strings, booleans and [None] are compared as they are,
    lists item by item, records field by field. *)

(** [f == n] for a [float] and an [int]: the two are compared as the
    numbers they are, without rounding. *)
Definition float_eq_int (f : float) (n : Z) : bool :=
  match Prim2SF f with
  | S754_zero _ => (n =? 0)%Z
  | S754_finite s m e =>
      let m := if s then Z.neg m else Z.pos m in
      if (0 <=? e)%Z then (n =? m * 2 ^ e)%Z else (n * 2 ^ (- e) =? m)%Z
  | _ => false
  end.

Definition eq_number (a b : number) : bool :=
  match a, b with
  | PyInt m, PyInt n => (m =? n)%Z
  | PyFloat f, PyFloat g => PrimFloat.eqb f g
  | PyInt n, PyFloat f | PyFloat f, PyInt n => float_eq_int f n
  end.

Definition eq_optional {A} (eq : A -> A -> bool) (a b : option A) : bool :=
  match a, b with
  | Some x, Some y => eq x y
  | None, None => true
  | _, _ => false
  end.

Fixpoint eq_list {A} (eq : A -> A -> bool) (l1 l2 : list A) : bool :=
  match l1, l2 with
  | [], [] => true
  | x :: l1', y :: l2' => eq x y && eq_list eq l1' l2'
  | _, _ => false
  end.

Definition eq_Ingredient (a b : Ingredient) : bool :=
  String.eqb (name_en a) (name_en b)
  && String.eqb (name_nl a) (name_nl b)
  && eq_optional String.eqb (quantity a) (quantity b).

Definition eq_RecipeStep (a b : RecipeStep) : bool :=
  String.eqb (display_name_en a) (display_name_en b)
  && String.eqb (display_name_nl a) (display_name_nl b)
  && String.eqb (action_en a) (action_en b)
  && String.eqb (action_nl a) (action_nl b)
  && String.eqb (instructions_en a) (instructions_en b)
  && String.eqb (instructions_nl a) (instructions_nl b)
  && String.eqb (Workplace_str (workplace a)) (Workplace_str (workplace b))
  && Bool.eqb (has_timer a) (has_timer b)
  && eq_optional PrimFloat.eqb (timer_minutes a) (timer_minutes b)
  && Bool.eqb (is_first_appearance a) (is_first_appearance b).

Definition eq_SousChefRecipe (a b : SousChefRecipe) : bool :=
  String.eqb (generic_name_en a) (generic_name_en b)
  && String.eqb (generic_name_nl a) (generic_name_nl b)
  && String.eqb (recipe_name_en a) (recipe_name_en b)
  && String.eqb (recipe_name_nl a) (recipe_name_nl b)
  && String.eqb (description_en a) (description_en b)
  && String.eqb (description_nl a) (description_nl b)
  && String.eqb (Difficulty_str (difficulty a)) (Difficulty_str (difficulty b))
  && (servings a =? servings b)%Z
  && (prep_time_minutes a =? prep_time_minutes b)%Z
  && (cook_time_minutes a =? cook_time_minutes b)%Z
  && eq_optional Z.eqb (calories_per_person a) (calories_per_person b)
  && eq_optional eq_number (protein_g a) (protein_g b)
  && eq_optional eq_number (carbs_g a) (carbs_g b)
  && eq_optional eq_number (fat_g a) (fat_g b)
  && eq_list eq_Ingredient (ingredients a) (ingredients b)
  && eq_list eq_RecipeStep (steps a) (steps b).

(** The floats a recipe holds: its nutrition values, where they are
    floats, and the timers of its steps. *)
Definition float_of (x : option number) : option float :=
  match x with
  | Some (PyFloat f) => Some f
  | _ => None
  end.

Definition floats (r : SousChefRecipe) : list float :=
  omap float_of [protein_g r; carbs_g r; fat_g r] ++ omap timer_minutes (steps r).

(** No float of the recipe is NaN. *)
Definition no_nan (r : SousChefRecipe) : Prop :=
  Forall (fun f => is_nan f = false) (floats r).

(** What validation leaves in a nutrition field: [None], a float, or
    the default. *)
Definition default_or_float (x : option number) : bool :=
  match x with
  | Some (PyInt n) => (n =? 0)%Z
  | _ => true
  end.

(** The recipe with the [int]s of its float fields as floats. *)
Definition as_float (x : number) : number :=
  match x with
  | PyInt n => PyFloat (float_of_int n)
  | PyFloat _ => x
  end.

Definition as_floats (r : SousChefRecipe) : SousChefRecipe :=
  {| generic_name_en := generic_name_en r;
     generic_name_nl := generic_name_nl r;
     recipe_name_en := recipe_name_en r;
     recipe_name_nl := recipe_name_nl r;
     description_en := description_en r;
     description_nl := description_nl r;
     difficulty := difficulty r;
     servings := servings r;
     prep_time_minutes := prep_time_minutes r;
     cook_time_minutes := cook_time_minutes r;
     calories_per_person := calories_per_person r;
     protein_g := as_float <$> protein_g r;
     carbs_g := as_float <$> carbs_g r;
     fat_g := as_float <$> fat_g r;
     ingredients := ingredients r;
     steps := steps r |}.

(** *** JSON text

    [json.dumps] and [json.loads] belong to Python: the text is
    theirs. What the round trip needs of them is that the text written
    for a recipe reads back as the data that was written; Python writes
    NaN and the infinities as the literals it reads. *)
Record Codec : Type := {
  json_text : Type;
  dumps : gmap string json -> json_text;
  loads : json_text -> outcome (gmap string json)
}.

Definition reads_back (J : Codec) (v : gmap string json) : Prop :=
  loads J (dumps J v) = Ok v.

(** A codec whose text is the data itself. *)
Definition as_written : Codec :=
  {| json_text := gmap string json; dumps := fun v => v; loads := Ok |}.

Section Vocabulary.

Context {lax : LaxMode}.

(** The recipes that validation returns. *)
Definition validated (r : SousChefRecipe) : Prop :=
  exists v, model_validate v = Ok r.

(** The result of [structured_llm.invoke(p)] after [log]: what
    [structured_llm_invoke] returns and records. *)
Definition generation (llm : LLM) (log : list event) (p : prompt)
  : outcome SousChefRecipe :=
  match generate_json llm log p with
  | inl e => Raised e
  | inr v =>
      match model_validate v with
      | Ok recipe => Ok recipe
      | Invalid errs => Raised (OutputParserException errs)
      | Raised e => Raised e
      end
  end.

(** The result of [llm.invoke(p)] after [log]: what [llm_invoke]
    returns and records. *)
Definition completion (llm : LLM) (log : list event) (p : prompt)
  : outcome string :=
  match complete llm log p with
  | inl e => Raised e
  | inr content => Ok content
  end.

(** What holds of the events from a critique on: [d] repairs are left,
    [r] is the candidate. *)
Definition loop_post (d : nat) (r : SousChefRecipe) (events : list event)
    (res : outcome AgentState) : Prop :=
  (repairs events <= d)%nat /\
  transforms events = 0%nat /\
  (no_failure events -> Outcome.is_ok res = true) /\
  forall state', res = Ok state' ->
    generations events = repairs events /\
    final_recipe state' = Some (default r (last_candidate events)) /\
    validated (default r (last_candidate events)) /\
    (never_approved events -> repairs events = d).

(** What holds of the events of a whole run. *)
Definition run_post (input : AgentState) (events : list event)
    (res : outcome AgentState) : Prop :=
  (repairs events <= 2)%nat /\
  (transforms events <= 1)%nat /\
  (is_Some (raw_recipe input) -> no_failure events -> Outcome.is_ok res = true) /\
  forall state, res = Ok state ->
    transforms events = 1%nat /\
    generations events = S (repairs events) /\
    (exists r, final_recipe state = Some r /\
               last_candidate events = Some r /\ validated r) /\
    (never_approved events -> repairs events = 2%nat).

Definition final_of (res : outcome AgentState) : option SousChefRecipe :=
  match res with
  | Ok state => final_recipe state
  | _ => None
  end.

(** The recipes that some run of the workflow returns as final. *)
Definition finalized (r : SousChefRecipe) : Prop :=
  exists (llm : LLM) (input : AgentState) (log : list event),
    final_of (fst (agent_invoke llm input log)) = Some r.

(** A recipe written as JSON, as the page does for the download, and
    the text parsed back through the validator. *)
Definition roundtrip (J : Codec) (r : SousChefRecipe) : outcome SousChefRecipe :=
  loads J (dumps J (model_dump r)) >>= model_validate.

End Vocabulary.

(** Two LLMs to run the workflow on: both answer every generation with
    the same raw recipe, whose step is at a "Wok"; one never approves,
    the other approves at once. *)
Module Oracles.

Definition answer : gmap string json :=
  Examples.recipe (JStr "Hard") (JInt 4) [JObj (Examples.step (JStr "Wok"))].

Definition never_approves : LLM :=
  {| complete := fun _ _ => inr "Timers are missing.";
     generate_json := fun _ _ => inr answer |}.

Definition approves_at_once : LLM :=
  {| complete := fun _ _ => inr "Everything looks great. APPROVED";
     generate_json := fun _ _ => inr answer |}.

Definition input : AgentState :=
  {| raw_recipe := Some "Fry the onion in a wok.";
     parsed_recipe := None; critique := None; final_recipe := None;
     attempts := None |}.

End Oracles.

(** ** The calls of a run

    The calls a run makes from a critique on, read off the nodes and the
    routing function: [k] repairs were made, [r] is the candidate, [log]
    holds the calls made so far. The run ends with an exception or with
    the recipe it finalizes. *)

Section Traces.

Context {lax : LaxMode} (llm : LLM).

Inductive critique_trace
  : nat -> SousChefRecipe -> list event -> list event ->
    exception + SousChefRecipe -> Prop :=
  | trace_critique_raises k r log e :
      completion llm log (critique_prompt r) = Raised e ->
      critique_trace k r log [Completion (critique_prompt r) (Raised e)] (inl e)
  | trace_finalize k r log content :
      completion llm log (critique_prompt r) = Ok content ->
      contains "APPROVED" content = true \/ (2 <= k)%nat ->
      critique_trace k r log [Completion (critique_prompt r) (Ok content)] (inr r)
  | trace_repair_raises k r log content e :
      completion llm log (critique_prompt r) = Ok content ->
      contains "APPROVED" content = false -> (k < 2)%nat ->
      generation llm (log ++ [Completion (critique_prompt r) (Ok content)])%list
        (repair_prompt r content) = Raised e ->
      critique_trace k r log
        [Completion (critique_prompt r) (Ok content);
         Generation (repair_prompt r content) (Raised e)] (inl e)
  | trace_repair k r log content fixed events out :
      completion llm log (critique_prompt r) = Ok content ->
      contains "APPROVED" content = false -> (k < 2)%nat ->
      generation llm (log ++ [Completion (critique_prompt r) (Ok content)])%list
        (repair_prompt r content) = Ok fixed ->
      critique_trace (S k) fixed
        (log ++ [Completion (critique_prompt r) (Ok content);
                 Generation (repair_prompt r content) (Ok fixed)])%list
        events out ->
      critique_trace k r log
        (Completion (critique_prompt r) (Ok content)
         :: Generation (repair_prompt r content) (Ok fixed) :: events) out.

(** The calls of a whole run on [input], after [log]. *)
Inductive run_trace (input : AgentState) (log : list event)
  : list event -> exception + SousChefRecipe -> Prop :=
  | trace_no_raw_recipe :
      raw_recipe input = None ->
      run_trace input log [] (inl (KeyError "raw_recipe"))
  | trace_transform_raises raw e :
      raw_recipe input = Some raw ->
      generation llm log (transform_prompt raw) = Raised e ->
      run_trace input log [Generation (transform_prompt raw) (Raised e)] (inl e)
  | trace_transformed raw recipe events out :
      raw_recipe input = Some raw ->
      generation llm log (transform_prompt raw) = Ok recipe ->
      critique_trace 0 recipe
        (log ++ [Generation (transform_prompt raw) (Ok recipe)])%list events out ->
      run_trace input log
        (Generation (transform_prompt raw) (Ok recipe) :: events) out.

End Traces.

(** The result of a run against the end of its trace. *)
Definition ends_with (res : outcome AgentState) (out : exception + SousChefRecipe)
  : Prop :=
  match out with
  | inl e => res = Raised e
  | inr r => exists state, res = Ok state /\ final_recipe state = Some r
  end.

(** The kind of a call. *)
Inductive call : Type :=
  | TransformCall | CritiqueCall | RepairCall | OtherCall.

Definition call_of (e : event) : call :=
  match e with
  | Generation (transform_prompt _) _ => TransformCall
  | Generation (repair_prompt _ _) _ => RepairCall
  | Completion (critique_prompt _) _ => CritiqueCall
  | _ => OtherCall
  end.

(** The calls from a critique on when [d] repairs are left. *)
Fixpoint calls_left (d : nat) : list call :=
  match d with
  | O => [CritiqueCall]
  | S d' => CritiqueCall :: RepairCall :: calls_left d'
  end.

(** The text of the last critique that was answered. *)
Fixpoint last_critique (log : list event) : option string :=
  match log with
  | [] => None
  | e :: log' =>
      match last_critique log', e with
      | Some c, _ => Some c
      | None, Completion _ (Ok c) => Some c
      | None, _ => None
      end
  end.

(** The exception of a call that raised. *)
Definition raised_by (e : event) : option exception :=
  match e with
  | Generation _ (Raised x) | Completion _ (Raised x) => Some x
  | _ => None
  end.

(** LLMs that fail, and a state that carries keys of an earlier run. *)
Module Faults.

Definition fails_on_repair : LLM :=
  {| complete := fun _ _ => inr "Timers are missing.";
     generate_json := fun _ p =>
       match p with
       | repair_prompt _ _ => inl ProviderError
       | _ => inr Oracles.answer
       end |}.

Definition stale_input : AgentState :=
  {| raw_recipe := Some "Fry the onion in a wok.";
     parsed_recipe := Some (Examples.cooked 2 Pan);
     critique := Some "APPROVED";
     final_recipe := Some (Examples.cooked 2 Pan);
     attempts := Some 7 |}.

(** Answers with a timer on their step, which waits [t] minutes, and
    with all the nutrition values; an LLM that gives such an answer and
    approves it; what validation makes of the answer. *)
Definition timed_answer (t : float) : gmap string json :=
  <["protein_g" := JFloat 35]>
    (<["carbs_g" := JFloat 45]>
       (<["fat_g" := JFloat 18]>
          (Examples.recipe (JStr "Easy") (JInt 4)
             [JObj (<["has_timer" := JBool true]>
                      (<["timer_minutes" := JFloat t]>
                         (Examples.step (JStr "Stove"))))]))).

Definition timed (t : float) : LLM :=
  {| complete := fun _ _ => inr "APPROVED";
     generate_json := fun _ _ => inr (timed_answer t) |}.

Definition cooked_timed (t : float) : SousChefRecipe :=
  {| generic_name_en := "Chicken Rice";
     generic_name_nl := "Kip Rijst";
     recipe_name_en := "One-pan Chicken and Garlic Rice";
     recipe_name_nl := "Kip met knoflookrijst";
     description_en := "Easy and tasty.";
     description_nl := "Makkelijk en lekker.";
     difficulty := Easy;
     servings := 4;
     prep_time_minutes := 10;
     cook_time_minutes := 25;
     calories_per_person := Some 550;
     protein_g := Some (PyFloat 35);
     carbs_g := Some (PyFloat 45);
     fat_g := Some (PyFloat 18);
     ingredients :=
       [{| name_en := "Onion"; name_nl := "Ui"; quantity := Some "to taste" |}];
     steps := [set_timer true (Some t) (Examples.cooked_step Stove)] |}.

End Faults.

(** The state the page gives to [agent.invoke]. *)
Definition initial_state (recipe_input : string) : AgentState :=
  {| raw_recipe := Some recipe_input; parsed_recipe := None;
     critique := None; final_recipe := None; attempts := None |}.

(** The expander [x] is that of the numbered step: its title has the
    integer part of the minutes when the step has a timer and the
    minutes are not zero, and no minutes otherwise. *)
Definition shows (x : expander) (numbered : Z * RecipeStep) : Prop :=
  expander_number x = fst numbered /\
  expander_step x = snd numbered /\
  expander_minutes x
  = match timer_minutes (snd numbered) with
    | Some t =>
        if has_timer (snd numbered) && negb (PrimFloat.eqb t 0)
        then Some (truncate t) else None
    | None => None
    end.

(** The title of the step raises [e]: the step has a timer, and its
    minutes are NaN or an infinity. *)
Definition bad_timer (step : RecipeStep) (e : exception) : Prop :=
  has_timer step = true /\
  exists t, timer_minutes step = Some t /\ float_truth t = true /\
    (is_nan t = true /\ e = ValueError \/
     is_nan t = false /\ is_infinity t = true /\ e = OverflowError).

(** The download buttons of a recipe. *)
Definition downloads_of (recipe : SousChefRecipe) : downloads :=
  {| json_data := model_dump recipe;
     json_name := json_file_name recipe;
     csv_rows := steps_rows recipe;
     csv_name := csv_file_name recipe |}.

(** The names of the fields of [SousChefRecipe], and those without a
    default. *)
Definition field_names : list string :=
  ["generic_name_en"; "generic_name_nl"; "recipe_name_en"; "recipe_name_nl";
   "description_en"; "description_nl"; "difficulty"; "servings";
   "prep_time_minutes"; "cook_time_minutes"; "calories_per_person";
   "protein_g"; "carbs_g"; "fat_g"; "ingredients"; "steps"].

Definition required_fields : list string :=
  ["generic_name_en"; "generic_name_nl"; "recipe_name_en"; "recipe_name_nl";
   "description_en"; "description_nl"; "difficulty"; "servings";
   "prep_time_minutes"; "cook_time_minutes"; "ingredients"; "steps"].

(** A validation that did not succeed and, unless an exception escaped,
    lists the location [l] among its errors. *)
Definition rejected_at {A} (l : loc) (o : outcome A) : Prop :=
  match o with
  | Ok _ => False
  | Invalid errs => l ∈ errs
  | Raised _ => True
  end.

(** Two validations that both succeed, or fail in the same way. *)
Definition same_failure {A B} (a : outcome A) (b : outcome B) : Prop :=
  match a, b with
  | Ok _, Ok _ => True
  | Invalid errs1, Invalid errs2 => errs1 = errs2
  | Raised e1, Raised e2 => e1 = e2
  | _, _ => False
  end.

Definition set_quantity (q : option string) (i : Ingredient) : Ingredient :=
  {| name_en := name_en i; name_nl := name_nl i; quantity := q |}.

(** * Properties *)

(** ** Strings and tables *)

Lemma append_cons (c : Ascii.ascii) (s t : string) :
  String c s ++ t = String c (s ++ t).
Proof. reflexivity. Qed.

Lemma prefix_spec (n h : string) :
  String.prefix n h = true <-> exists post, h = n ++ post.
Proof.
  revert h. induction n as [|c n IH]; intros h.
  - split; [intros _; by exists h | by destruct h].
  - destruct h as [|c' h]; simpl.
    + split; [done | intros [post Hpost]; discriminate].
    + destruct (Ascii.ascii_dec c c') as [->|Hne].
      * rewrite IH. split; intros [post Hpost]; exists post.
        -- by rewrite append_cons, Hpost.
        -- rewrite append_cons in Hpost. by injection Hpost.
      * split; [done |]. intros [post Hpost].
        rewrite append_cons in Hpost. injection Hpost. congruence.
Qed.

(** [contains] is Python's substring test. *)
Lemma contains_spec (n h : string) :
  contains n h = true <-> exists pre post, h = pre ++ n ++ post.
Proof.
  induction h as [|c h IH]; cbn [contains].
  - destruct (String.prefix n "") eqn:E.
    + apply prefix_spec in E as [post E]. split; [intros _ | done].
      by exists "", post.
    + split; [done |]. intros [pre [post Hpost]].
      destruct pre; [| discriminate].
      assert (String.prefix n "" = true) by (apply prefix_spec; eauto).
      congruence.
  - destruct (String.prefix n (String c h)) eqn:E.
    + apply prefix_spec in E as [post E]. split; [intros _ | done].
      by exists "", post.
    + rewrite IH. split.
      * intros [pre [post ->]]. by exists (String c pre), post.
      * intros [pre [post Hpost]]. destruct pre as [|c' pre].
        -- assert (String.prefix n (String c h) = true)
             by (apply prefix_spec; eauto).
           congruence.
        -- rewrite append_cons in Hpost. injection Hpost as _ ->. eauto.
Qed.

Ltac table_cases H :=
  apply elem_of_list_to_map_2 in H;
  repeat (apply elem_of_cons in H as [H|H]; [injection H as -> -> |]);
  [.. | by apply elem_of_nil in H].

Lemma workplace_targets_not_keys (k t : string) :
  workplace_mapping !! k = Some t -> workplace_mapping !! t = None.
Proof. intros H. unfold workplace_mapping in H. table_cases H; reflexivity. Qed.

Lemma difficulty_targets_not_keys (k t : string) :
  difficulty_mapping !! k = Some t -> difficulty_mapping !! t = None.
Proof. intros H. unfold difficulty_mapping in H. table_cases H; reflexivity. Qed.

Lemma workplace_targets_in_enum (k t : string) :
  workplace_mapping !! k = Some t -> is_Some (assoc t Workplace_values).
Proof. intros H. unfold workplace_mapping in H. table_cases H; by eexists. Qed.

Lemma get_or_self_idempotent (mapping : gmap string string) :
  (forall k t, mapping !! k = Some t -> mapping !! t = None) ->
  forall v, get_or_self mapping v >>= get_or_self mapping = get_or_self mapping v.
Proof.
  intros Hfix v. destruct v as [| | | |s| |]; try reflexivity. simpl.
  destruct (mapping !! s) as [t|] eqn:E; simpl.
  - by rewrite (Hfix _ _ E).
  - by rewrite E.
Qed.

(** The strings of a closed vocabulary are not keys of its table. *)
Lemma Workplace_str_not_key (w : Workplace) :
  workplace_mapping !! Workplace_str w = None.
Proof. by destruct w. Qed.

Lemma Difficulty_str_not_key (d : Difficulty) :
  difficulty_mapping !! Difficulty_str d = None.
Proof. by destruct d. Qed.

(** C9. The two synonym remappings are idempotent: remapping the result
    of a remapping changes nothing (and a value whose lookup raises,
    raises), because no target of a table is a key of that table. *)
Theorem remappings_idempotent :
  (forall v, fix_workplace v >>= fix_workplace = fix_workplace v) /\
  (forall v, fix_difficulty v >>= fix_difficulty = fix_difficulty v) /\
  (forall k t, workplace_mapping !! k = Some t -> workplace_mapping !! t = None) /\
  (forall k t, difficulty_mapping !! k = Some t -> difficulty_mapping !! t = None).
Proof.
  split_and!.
  - apply get_or_self_idempotent, workplace_targets_not_keys.
  - apply get_or_self_idempotent, difficulty_targets_not_keys.
  - apply workplace_targets_not_keys.
  - apply difficulty_targets_not_keys.
Qed.

Lemma remappings_idempotent_witness :
  workplace_mapping !! "Stove" = None /\ difficulty_mapping !! "Medium" = None.
Proof.
  split.
  - exact (proj1 (proj2 (proj2 remappings_idempotent)) "Wok" "Stove" eq_refl).
  - exact (proj2 (proj2 (proj2 remappings_idempotent)) "Moderate" "Medium" eq_refl).
Defined.

(** ** Outcomes of a record *)

Lemma ap_Ok {A B} (f : outcome (A -> B)) (x : outcome A) (b : B) :
  f <*> x = Ok b -> exists g a, f = Ok g /\ x = Ok a /\ b = g a.
Proof. destruct f, x; simpl; intros [= <-]; eauto. Qed.

Lemma at_loc_Ok {A} (i : loc_item) (x : outcome A) (a : A) :
  Outcome.at_loc i x = Ok a -> x = Ok a.
Proof. by destruct x. Qed.

Lemma required_Ok `{LaxMode} {A} name (val : json -> outcome A) v (a : A) :
  required name val v = Ok a -> exists x, v !! name = Some x /\ val x = Ok a.
Proof.
  unfold required. destruct (v !! name) as [x|]; [| done].
  intros Hx%at_loc_Ok. eauto.
Qed.

(** Peel the fields off a successful record validation. *)
Ltac invert_record H :=
  repeat
    (let g := fresh "g" in
     let Hf := fresh "Hfield" in
     apply ap_Ok in H as (g & ? & H & Hf & ->));
  injection H as <-.

(** ** The workplace of a step *)

Lemma validate_literal_out {A} (values : list (string * A)) (v : json) :
  ~ in_vocabulary values v -> validate_literal values v = Invalid [[]].
Proof.
  intros Hout. destruct v as [| | | |s| |]; try reflexivity. simpl.
  destruct (assoc s values) eqn:E; [| done].
  destruct Hout. exists s. by rewrite E.
Qed.

Lemma get_or_self_unmapped (mapping : gmap string string) (v : json) :
  ~ in_table mapping v -> hashable v = true -> get_or_self mapping v = Ok v.
Proof.
  intros Hout Hhash. destruct v as [| | | |s| |]; try done. simpl.
  destruct (mapping !! s) eqn:E; [| done].
  destruct Hout. exists s. by rewrite E.
Qed.

Lemma validate_workplace_out (v : json) :
  ~ in_table workplace_mapping v -> ~ in_vocabulary Workplace_values v ->
  forall w, validate_workplace v <> Ok w.
Proof.
  intros Htable Hvoc w. unfold validate_workplace, fix_workplace.
  destruct (hashable v) eqn:Hhash.
  - rewrite get_or_self_unmapped by done. cbn [Outcome.bind].
    by rewrite validate_literal_out.
  - by destruct v.
Qed.

(** C4. A workplace that is in neither the table nor the vocabulary is
    to pass through the table unchanged and to fail the validation of
    the step. The code does so for the number 3: the table returns it as
    it is and the recipe is rejected with a validation error at the
    workplace of the step. It does not for a list: the list
    ["Stove", "Pan"] is in neither the table nor the vocabulary, and
    the lookup in the table raises [TypeError] on it, so that the value
    does not reach the [Literal], and the validation of the step and of
    the recipe end with this exception in place of a validation
    error. *)
Theorem unhashable_workplace_not_passed_through :
  let v := JList [JStr "Stove"; JStr "Pan"] in
  let raw wp := Examples.recipe (JStr "Easy") (JInt 4) [JObj (Examples.step wp)] in
  (~ in_table workplace_mapping v /\ ~ in_vocabulary Workplace_values v) /\
  (fix_workplace v = Raised TypeError /\
   fix_workplace v <> Ok v /\
   validate_RecipeStep (lax := no_coercion) (JObj (Examples.step v))
     = Raised TypeError /\
   model_validate (lax := no_coercion) (raw v) = Raised TypeError) /\
  (fix_workplace (JInt 3) = Ok (JInt 3) /\
   model_validate (lax := no_coercion) (raw (JInt 3))
     = Invalid [[Key "steps"; Index 0; Key "workplace"]]).
Proof.
  intros v raw. split_and!;
    [by intros (s & ? & _) | by intros (s & ? & _) | done | done
    | vm_compute; reflexivity .. ].
Qed.

(** X20. The workplace of a raw step goes through the synonym table
    before the [Literal] is checked, so that "Wok" is validated as
    [Stove]. A value that is neither a key of the table nor a word of
    the vocabulary, such as "Fireplace", is returned unchanged by the
    table and rejected by the [Literal] when Python can hash it (a
    string, a number, a boolean, [None]); on a list or a dict the
    lookup raises [TypeError]. In both cases the step is not
    accepted. *)
Theorem workplace_remapped_before_validation `{LaxMode} :
  fix_workplace (JStr "Wok") = Ok (JStr "Stove") /\
  validate_workplace (JStr "Wok") = Ok Stove /\
  (forall k t, workplace_mapping !! k = Some t ->
     validate_workplace (JStr k) = validate_literal Workplace_values (JStr t)) /\
  (forall v,
     ~ in_table workplace_mapping v -> ~ in_vocabulary Workplace_values v ->
     (if hashable v
      then fix_workplace v = Ok v /\ validate_workplace v = Invalid [[]]
      else fix_workplace v = Raised TypeError) /\
     (forall (step : gmap string json),
        step !! "workplace" = Some v ->
        Outcome.is_ok (validate_RecipeStep (JObj step)) = false)) /\
  ~ in_table workplace_mapping (JStr "Fireplace") /\
  ~ in_vocabulary Workplace_values (JStr "Fireplace").
Proof.
  split_and!; try reflexivity.
  - intros k t Hk. unfold validate_workplace, fix_workplace, get_or_self.
    by rewrite Hk.
  - intros v Htable Hvoc. split.
    + destruct (hashable v) eqn:Hhash; [| by destruct v].
      unfold validate_workplace.
      unfold fix_workplace. rewrite get_or_self_unmapped by done.
      split; [done |]. cbn [Outcome.bind]. by apply validate_literal_out.
    + intros step Hstep.
      destruct (validate_RecipeStep (JObj step)) as [s| |] eqn:E; try done.
      exfalso. unfold validate_RecipeStep in E. invert_record E.
      match goal with
      | Hw : required "workplace" _ _ = Ok _ |- _ =>
          apply required_Ok in Hw as (raw & Hraw & Hw)
      end.
      rewrite Hstep in Hraw. injection Hraw as <-.
      by eapply validate_workplace_out.
  - intros (s & [= <-] & [t Ht]). done.
  - intros (s & [= <-] & [t Ht]). done.
Qed.

Lemma workplace_remapped_before_validation_witness :
  validate_workplace (JStr "Wok") = validate_literal Workplace_values (JStr "Stove") /\
  Outcome.is_ok
    (validate_RecipeStep (lax := no_coercion)
       (JObj (Examples.step (JStr "Fireplace")))) = false.
Proof.
  pose proof (workplace_remapped_before_validation (H := no_coercion))
    as (_ & _ & Hmap & Hout & Hfire1 & Hfire2).
  split.
  - exact (Hmap "Wok" "Stove" eq_refl).
  - exact (proj2 (Hout (JStr "Fireplace") Hfire1 Hfire2)
             (Examples.step (JStr "Fireplace")) eq_refl).
Defined.

(** ** Field-name aliases *)

Lemma rename_key_other (v : gmap string json) (old new k : string) :
  k <> old -> k <> new -> rename_key v (old, new) !! k = v !! k.
Proof.
  intros Hold Hnew. unfold rename_key.
  destruct (v !! old), (v !! new); try done.
  rewrite lookup_insert_ne, lookup_delete_ne; done.
Qed.

Lemma rename_key_new (v : gmap string json) (old new : string) :
  rename_key v (old, new) !! new
    = match v !! new with Some y => Some y | None => v !! old end.
Proof.
  unfold rename_key.
  destruct (v !! old) eqn:Eold, (v !! new) eqn:Enew; rewrite ?Enew; try done.
  by rewrite lookup_insert_eq.
Qed.

Lemma rename_key_old (v : gmap string json) (old new : string) :
  old <> new ->
  rename_key v (old, new) !! old
    = match v !! new with Some _ => v !! old | None => None end.
Proof.
  intros Hne. unfold rename_key.
  destruct (v !! old) eqn:Eold, (v !! new) eqn:Enew; rewrite ?Eold; try done.
  rewrite lookup_insert_ne, lookup_delete_eq; done.
Qed.

Ltac rename_key_lookups :=
  repeat first
    [ rewrite rename_key_other by done
    | rewrite rename_key_new
    | rewrite rename_key_old by done ].

(** What [fix_field_names] leaves under each key. *)
Lemma fix_field_names_lookup (v : gmap string json) :
  (forall old new, (old, new) ∈ renames ->
     fix_field_names v !! new
       = match v !! new with Some y => Some y | None => v !! old end /\
     fix_field_names v !! old
       = match v !! new with Some _ => v !! old | None => None end) /\
  (forall k, k ∉ aliases -> k ∉ canonicals -> fix_field_names v !! k = v !! k).
Proof.
  unfold fix_field_names, renames, aliases, canonicals.
  cbn [foldl fmap list_fmap fst snd].
  split.
  - intros old new Hin.
    repeat (apply elem_of_cons in Hin as [Hin|Hin]; [injection Hin as -> -> |]);
      [.. | by apply elem_of_nil in Hin];
      split; by rename_key_lookups.
  - intros k Hk1 Hk2. simpl in Hk1, Hk2.
    rewrite !not_elem_of_cons in Hk1. rewrite !not_elem_of_cons in Hk2.
    destruct Hk1 as (? & ? & ? & ? & _), Hk2 as (? & ? & ? & ? & _).
    by rename_key_lookups.
Qed.

(** C5. An alias key is moved to its canonical key only when the
    canonical key is absent; when the canonical key is present its
    value is kept, and the alias stays where it is. Keys that are
    neither alias nor canonical are untouched. *)
Theorem aliases_renamed_when_canonical_absent
    (v : gmap string json) (old new : string) :
  (old, new) ∈ renames ->
  (v !! new = None ->
     fix_field_names v !! new = v !! old /\ fix_field_names v !! old = None) /\
  (forall y, v !! new = Some y ->
     fix_field_names v !! new = Some y /\ fix_field_names v !! old = v !! old) /\
  (forall k, k ∉ aliases -> k ∉ canonicals -> fix_field_names v !! k = v !! k).
Proof.
  intros Hin.
  destruct (fix_field_names_lookup v) as [Hpair Hother].
  destruct (Hpair old new Hin) as [Hnew Hold].
  split_and!.
  - intros Habsent. by rewrite Hnew, Hold, Habsent.
  - intros y Hpresent. by rewrite Hnew, Hold, Hpresent.
  - exact Hother.
Qed.

Lemma aliases_renamed_when_canonical_absent_witness :
  fix_field_names
    (<["calories_per_serving" := JInt 550]> ∅) !! "calories_per_person"
    = Some (JInt 550) /\
  fix_field_names
    (<["calories_per_serving" := JInt 550]>
       (<["calories_per_person" := JInt 400]> ∅)) !! "calories_per_person"
    = Some (JInt 400).
Proof.
  split.
  - exact (proj1 (proj1
      (aliases_renamed_when_canonical_absent
         (<["calories_per_serving" := JInt 550]> ∅)
         "calories_per_serving" "calories_per_person"
         ltac:(apply list_elem_of_here)) eq_refl)).
  - exact (proj1 (proj1 (proj2
      (aliases_renamed_when_canonical_absent
         (<["calories_per_serving" := JInt 550]>
            (<["calories_per_person" := JInt 400]> ∅))
         "calories_per_serving" "calories_per_person"
         ltac:(apply list_elem_of_here))) (JInt 400) eq_refl)).
Defined.

(** ** Fields and keys *)

Section Fields.

Context {lax : LaxMode} {A : Type}.
Implicit Types (val : json -> outcome A) (v : gmap string json).

Lemma required_ext name val v1 v2 :
  v1 !! name = v2 !! name -> required name val v1 = required name val v2.
Proof. unfold required. by intros ->. Qed.

Lemma defaulted_ext name (d : A) val v1 v2 :
  v1 !! name = v2 !! name -> defaulted name d val v1 = defaulted name d val v2.
Proof. unfold defaulted. by intros ->. Qed.

Lemma required_insert name val v x :
  required name val (<[name := x]> v) = Outcome.at_loc (Key name) (val x).
Proof. unfold required. by rewrite lookup_insert_eq. Qed.

Lemma required_insert_ne name k val v x :
  k <> name -> required name val (<[k := x]> v) = required name val v.
Proof. intros. apply required_ext. by rewrite lookup_insert_ne. Qed.

Lemma required_delete_ne name k val v :
  k <> name -> required name val (delete k v) = required name val v.
Proof. intros. apply required_ext. by rewrite lookup_delete_ne. Qed.

Lemma required_missing name val v :
  v !! name = None -> required name val v = Invalid [[Key name]].
Proof. unfold required. by intros ->. Qed.

Lemma defaulted_insert name (d : A) val v x :
  defaulted name d val (<[name := x]> v) = Outcome.at_loc (Key name) (val x).
Proof. unfold defaulted. by rewrite lookup_insert_eq. Qed.

Lemma defaulted_insert_ne name k (d : A) val v x :
  k <> name -> defaulted name d val (<[k := x]> v) = defaulted name d val v.
Proof. intros. apply defaulted_ext. by rewrite lookup_insert_ne. Qed.

Lemma defaulted_delete name (d : A) val v :
  defaulted name d val (delete name v) = Ok d.
Proof. unfold defaulted. by rewrite lookup_delete_eq. Qed.

Lemma defaulted_delete_ne name k (d : A) val v :
  k <> name -> defaulted name d val (delete k v) = defaulted name d val v.
Proof. intros. apply defaulted_ext. by rewrite lookup_delete_ne. Qed.

End Fields.

(** Bring the fields of an updated mapping back to the fields of the
    mapping. *)
Ltac field_lookups :=
  repeat first
    [ rewrite required_insert
    | rewrite defaulted_insert
    | rewrite defaulted_delete
    | rewrite required_insert_ne by done
    | rewrite required_delete_ne by done
    | rewrite defaulted_insert_ne by done
    | rewrite defaulted_delete_ne by done ].

Ltac rewrite_fields :=
  repeat match goal with
         | Hf : required _ _ _ = Ok _ |- _ => rewrite Hf; clear Hf
         | Hf : defaulted _ _ _ _ = Ok _ |- _ => rewrite Hf; clear Hf
         end.

(** ** Timers *)

(** C10. There is no constraint between [has_timer] and
    [timer_minutes]: in a raw step that validates, the two keys can be
    set to any flag and to an absent, null or set number of minutes,
    and the step still validates, with exactly these two values. In
    particular [has_timer] true without [timer_minutes] gives [None],
    and [has_timer] false with [timer_minutes] keeps the minutes. *)
Theorem timer_fields_unconstrained `{LaxMode}
    (v : gmap string json) (s : RecipeStep) :
  validate_RecipeStep (JObj v) = Ok s ->
  forall b : bool,
    validate_RecipeStep
      (JObj (<["has_timer" := JBool b]> (delete "timer_minutes" v)))
      = Ok (set_timer b None s) /\
    validate_RecipeStep
      (JObj (<["has_timer" := JBool b]> (<["timer_minutes" := JNull]> v)))
      = Ok (set_timer b None s) /\
    forall f : float,
      validate_RecipeStep
        (JObj (<["has_timer" := JBool b]> (<["timer_minutes" := JFloat f]> v)))
        = Ok (set_timer b (Some f) s).
Proof.
  intros Hv b. unfold validate_RecipeStep in *. invert_record Hv.
  split_and!; [| | intros f]; field_lookups; rewrite_fields; reflexivity.
Qed.

Lemma timer_fields_unconstrained_witness :
  Outcome.map has_timer
    (validate_RecipeStep (lax := no_coercion)
       (JObj (<["has_timer" := JBool true]>
                (delete "timer_minutes" (Examples.step (JStr "Pan"))))))
    = Ok true /\
  Outcome.map timer_minutes
    (validate_RecipeStep (lax := no_coercion)
       (JObj (<["has_timer" := JBool false]>
                (<["timer_minutes" := JFloat 5%float]>
                   (Examples.step (JStr "Pan"))))))
    = Ok (Some 5%float).
Proof.
  split.
  - rewrite (proj1 (timer_fields_unconstrained (H := no_coercion)
               (Examples.step (JStr "Pan")) _ eq_refl true)).
    reflexivity.
  - rewrite (proj2 (proj2 (timer_fields_unconstrained (H := no_coercion)
               (Examples.step (JStr "Pan")) _ eq_refl false)) 5%float).
    reflexivity.
Defined.

(** ** Validated recipes *)

Section Validated.

Context {lax : LaxMode}.

Lemma model_validate_Ok (v : gmap string json) (r : SousChefRecipe) :
  model_validate v = Ok r ->
  exists r0, validate_fields (fix_field_names v) = Ok r0 /\
             r = fix_difficulty_by_steps r0.
Proof.
  unfold model_validate, Outcome.map.
  destruct (validate_fields (fix_field_names v)) as [r0| |]; [| done | done].
  intros [= <-]. eauto.
Qed.

Lemma steps_fix_difficulty_by_steps (r : SousChefRecipe) :
  steps (fix_difficulty_by_steps r) = steps r.
Proof. unfold fix_difficulty_by_steps. by repeat case_match. Qed.

Lemma fix_difficulty_by_steps_idempotent (r : SousChefRecipe) :
  fix_difficulty_by_steps (fix_difficulty_by_steps r) = fix_difficulty_by_steps r.
Proof.
  unfold fix_difficulty_by_steps.
  destruct (Z.of_nat (length (steps r)) <=? 6)%Z eqn:E6;
    [| destruct (Z.of_nat (length (steps r)) <=? 11)%Z eqn:E11];
    cbn [steps set_difficulty]; rewrite E6, ?E11; reflexivity.
Qed.

Lemma fix_difficulty_by_steps_spec (r : SousChefRecipe) :
  difficulty_follows_steps (fix_difficulty_by_steps r).
Proof.
  unfold difficulty_follows_steps. rewrite steps_fix_difficulty_by_steps.
  unfold fix_difficulty_by_steps.
  destruct (Z.leb_spec (Z.of_nat (length (steps r))) 6);
    [| destruct (Z.leb_spec (Z.of_nat (length (steps r))) 11)];
    cbn [difficulty set_difficulty]; split_and!; intros; (done || lia).
Qed.

End Validated.

(** C1. The difficulty of a recipe that passed validation follows from
    the number of its steps alone: at most 6 steps is [Easy], 7 to 11
    is [Medium], 12 or more is [Intermediate], whatever difficulty the
    raw record carried. *)
Theorem difficulty_recomputed_from_steps `{LaxMode}
    (v : gmap string json) (r : SousChefRecipe) :
  model_validate v = Ok r ->
  ((length (steps r) <= 6)%nat -> difficulty r = Easy) /\
  ((7 <= length (steps r) <= 11)%nat -> difficulty r = Medium) /\
  ((12 <= length (steps r))%nat -> difficulty r = Intermediate).
Proof.
  intros (r0 & _ & ->)%model_validate_Ok.
  apply fix_difficulty_by_steps_spec.
Qed.

Lemma difficulty_recomputed_from_steps_witness :
  model_validate (lax := no_coercion)
    (Examples.recipe (JStr "Intermediate") (JInt 4)
       [JObj (Examples.step (JStr "Pan"))]) = Ok (Examples.cooked 4 Pan) /\
  difficulty (Examples.cooked 4 Pan) = Easy.
Proof.
  assert (model_validate (lax := no_coercion)
            (Examples.recipe (JStr "Intermediate") (JInt 4)
               [JObj (Examples.step (JStr "Pan"))]) = Ok (Examples.cooked 4 Pan))
    as Hv by (vm_compute; reflexivity).
  split; [exact Hv |].
  apply (proj1 (difficulty_recomputed_from_steps (H := no_coercion) _ _ Hv)).
  simpl. lia.
Defined.

(** ** Numbers of a recipe *)

Section Numbers.

Context {lax : LaxMode}.

Lemma agree_insert (v1 v2 : gmap string json) (k : string) (x : json) :
  agree v1 v2 -> agree (<[k := x]> v1) (<[k := x]> v2).
Proof.
  intros Hagree j Hj. destruct (decide (k = j)) as [->|Hne].
  - by rewrite !lookup_insert_eq.
  - rewrite !lookup_insert_ne by done. by apply Hagree.
Qed.

Lemma agree_trans (v1 v2 v3 : gmap string json) :
  agree v1 v2 -> agree v2 v3 -> agree v1 v3.
Proof. intros H12 H23 k Hk. by rewrite H12, H23. Qed.

Lemma canonical_alias (new : string) :
  new ∈ canonicals -> exists old, (old, new) ∈ renames /\ old ∈ aliases.
Proof.
  unfold canonicals, aliases. intros ([old new'] & -> & Hin)%list_elem_of_fmap.
  exists old. split; [done |]. apply list_elem_of_fmap. by exists (old, new').
Qed.

(** Setting a key that is not an alias commutes with the renaming, up
    to the aliases. *)
Lemma fix_field_names_insert (v : gmap string json) (k : string) (x : json) :
  k ∉ aliases ->
  agree (fix_field_names (<[k := x]> v)) (<[k := x]> (fix_field_names v)).
Proof.
  intros Hk j Hj.
  destruct (fix_field_names_lookup v) as [Hpair Hother].
  destruct (fix_field_names_lookup (<[k := x]> v)) as [Hpair' Hother'].
  destruct (decide (j ∈ canonicals)) as [Hcan|Hcan].
  - apply canonical_alias in Hcan as (old & Hin & Hold).
    destruct (Hpair' old j Hin) as [-> _].
    assert (k <> old) by congruence.
    destruct (decide (k = j)) as [->|Hne].
    + by rewrite !lookup_insert_eq.
    + rewrite !lookup_insert_ne by done. by destruct (Hpair old j Hin) as [-> _].
  - rewrite Hother' by done.
    destruct (decide (k = j)) as [->|Hne].
    + by rewrite !lookup_insert_eq.
    + rewrite !lookup_insert_ne by done. by rewrite Hother.
Qed.

Ltac not_alias :=
  let Hin := fresh in
  intros Hin; vm_compute in Hin;
  repeat (apply elem_of_cons in Hin as [Hin|Hin]; [discriminate |]);
  by apply elem_of_nil in Hin.

(** The fields are read under keys that are not aliases. *)
Lemma validate_fields_agree (v1 v2 : gmap string json) :
  agree v1 v2 -> validate_fields v1 = validate_fields v2.
Proof.
  intros Hagree. unfold validate_fields.
  repeat match goal with
         | |- context [required ?name ?val v1] =>
             rewrite (required_ext name val v1 v2) by (apply Hagree; not_alias)
         | |- context [defaulted ?name ?d ?val v1] =>
             rewrite (defaulted_ext name d val v1 v2) by (apply Hagree; not_alias)
         end.
  reflexivity.
Qed.

Lemma fix_field_names_inserts (v : gmap string json) (kvs : list (string * json)) :
  Forall (fun kv => kv.1 ∉ aliases) kvs ->
  agree (fix_field_names (foldr (fun kv => <[kv.1 := kv.2]>) v kvs))
        (foldr (fun kv => <[kv.1 := kv.2]>) (fix_field_names v) kvs).
Proof.
  induction 1 as [|[k x] kvs Hk _ IH]; [done |]. cbn [foldr fst snd].
  eapply agree_trans; [by apply fix_field_names_insert |].
  by apply agree_insert.
Qed.

(** The three integers of a validated recipe are taken from the raw
    record, under their own keys. *)
Lemma model_validate_ints (v : gmap string json) (r : SousChefRecipe) :
  model_validate v = Ok r ->
  (exists x, v !! "servings" = Some x /\ validate_int x = Ok (servings r)) /\
  (exists x, v !! "prep_time_minutes" = Some x /\
             validate_int x = Ok (prep_time_minutes r)) /\
  (exists x, v !! "cook_time_minutes" = Some x /\
             validate_int x = Ok (cook_time_minutes r)).
Proof.
  intros (r0 & Hfields & ->)%model_validate_Ok.
  destruct (fix_field_names_lookup v) as [_ Hother].
  unfold validate_fields in Hfields. invert_record Hfields.
  repeat match goal with
         | Hf : required _ validate_int _ = Ok _ |- _ =>
             apply required_Ok in Hf as (? & Hf & ?);
             rewrite Hother in Hf by not_alias
         end.
  unfold fix_difficulty_by_steps. repeat case_match; cbn; eauto 10.
Qed.

Lemma validate_optional_dump {A} (val : json -> outcome A) (dump : A -> json) :
  (forall a, dump a <> JNull) -> (forall a, val (dump a) = Ok a) ->
  forall o, validate_optional val (dump_optional dump o) = Ok o.
Proof.
  intros Hnull Hval [a|]; [| done]. simpl.
  unfold validate_optional, Outcome.map. specialize (Hnull a).
  destruct (dump a) eqn:E; try done; rewrite <- E, Hval; done.
Qed.

Lemma validate_optional_int (o : option Z) :
  validate_optional validate_int (dump_optional JInt o) = Ok o.
Proof. by apply validate_optional_dump. Qed.

Lemma validate_optional_number (o : option float) :
  validate_optional validate_number (dump_optional JFloat o) = Ok (PyFloat <$> o).
Proof. by destruct o. Qed.

Lemma validate_optional_str (o : option string) :
  validate_optional validate_str (dump_optional JStr o) = Ok o.
Proof. by apply validate_optional_dump. Qed.

(** Any integers are accepted for the three integer fields. *)
Lemma model_validate_set_numbers (v : gmap string json) (r : SousChefRecipe)
    (n p c : Z) :
  model_validate v = Ok r ->
  model_validate
    (<["servings" := JInt n]>
       (<["prep_time_minutes" := JInt p]>
          (<["cook_time_minutes" := JInt c]> v)))
    = Ok (set_numbers n p c r).
Proof.
  intros (r0 & Hfields & ->)%model_validate_Ok. unfold model_validate.
  pose proof (fix_field_names_inserts v
    [("servings", JInt n); ("prep_time_minutes", JInt p);
     ("cook_time_minutes", JInt c)]
    ltac:(repeat constructor; not_alias)) as Hagree.
  cbn [foldr fst snd] in Hagree. rewrite (validate_fields_agree _ _ Hagree).
  unfold validate_fields in *. invert_record Hfields.
  field_lookups. rewrite_fields.
  unfold fix_difficulty_by_steps. cbn. by repeat case_match.
Qed.

(** Any numbers, or none, are accepted for the nutrition fields. *)
Lemma model_validate_set_nutrition (v : gmap string json) (r : SousChefRecipe)
    (cal : option Z) (prot carb fat : option float) :
  model_validate v = Ok r ->
  model_validate
    (<["calories_per_person" := dump_optional JInt cal]>
       (<["protein_g" := dump_optional JFloat prot]>
          (<["carbs_g" := dump_optional JFloat carb]>
             (<["fat_g" := dump_optional JFloat fat]> v))))
    = Ok (set_nutrition cal prot carb fat r).
Proof.
  intros (r0 & Hfields & ->)%model_validate_Ok. unfold model_validate.
  pose proof (fix_field_names_inserts v
    [("calories_per_person", dump_optional JInt cal);
     ("protein_g", dump_optional JFloat prot);
     ("carbs_g", dump_optional JFloat carb);
     ("fat_g", dump_optional JFloat fat)]
    ltac:(repeat constructor; not_alias)) as Hagree.
  cbn [foldr fst snd] in Hagree. rewrite (validate_fields_agree _ _ Hagree).
  unfold validate_fields in *. invert_record Hfields.
  field_lookups. rewrite_fields.
  rewrite validate_optional_int, !validate_optional_number.
  unfold fix_difficulty_by_steps. cbn. by repeat case_match.
Qed.

End Numbers.

Lemma validate_int_never `{LaxMode} (x : json) (n : Z) :
  never_a_number x = true -> validate_int x <> Ok n.
Proof. by destruct x. Qed.

(** C6, as the claim states it, fails: the schema gives the fields
    their types and no bounds, so a record with no servings, negative
    times and negative nutrition values is accepted as it is. *)
Lemma out_of_range_numbers_accepted :
  model_validate (lax := no_coercion) Examples.out_of_range
    = Ok Examples.cooked_out_of_range /\
  ~ (0 < servings Examples.cooked_out_of_range) /\
  ~ (0 <= prep_time_minutes Examples.cooked_out_of_range) /\
  ~ (0 <= cook_time_minutes Examples.cooked_out_of_range) /\
  calories_per_person Examples.cooked_out_of_range = Some (-550) /\
  protein_g Examples.cooked_out_of_range = Some (PyFloat (-35.5)) /\
  PrimFloat.ltb (-35.5) 0 = true.
Proof.
  split_and!;
    [vm_compute; reflexivity | cbn; lia .. | reflexivity | reflexivity | reflexivity].
Qed.

(** C6 (amended). Structural validation enforces the types of the
    numeric fields and nothing else. In a raw record that validates,
    [servings], [prep_time_minutes] and [cook_time_minutes] are present
    and validate as integers; any three integers, of any sign, can be
    put in their place, and any numbers or [None] in place of the four
    nutrition fields, and the record still validates, with exactly
    these values. A record in which one of the three integer fields is
    missing, or holds [None], a list or a dict, is rejected. *)
Theorem numeric_fields_typed_not_bounded `{LaxMode}
    (v : gmap string json) (r : SousChefRecipe) :
  model_validate v = Ok r ->
  ((exists x, v !! "servings" = Some x /\ validate_int x = Ok (servings r)) /\
   (exists x, v !! "prep_time_minutes" = Some x /\
              validate_int x = Ok (prep_time_minutes r)) /\
   (exists x, v !! "cook_time_minutes" = Some x /\
              validate_int x = Ok (cook_time_minutes r))) /\
  (forall n p c : Z,
     model_validate
       (<["servings" := JInt n]>
          (<["prep_time_minutes" := JInt p]>
             (<["cook_time_minutes" := JInt c]> v)))
       = Ok (set_numbers n p c r)) /\
  (forall (cal : option Z) (prot carb fat : option float),
     model_validate
       (<["calories_per_person" := dump_optional JInt cal]>
          (<["protein_g" := dump_optional JFloat prot]>
             (<["carbs_g" := dump_optional JFloat carb]>
                (<["fat_g" := dump_optional JFloat fat]> v))))
       = Ok (set_nutrition cal prot carb fat r)) /\
  (forall name, name ∈ int_fields ->
     Outcome.is_ok (model_validate (delete name v)) = false /\
     forall x, never_a_number x = true ->
       Outcome.is_ok (model_validate (<[name := x]> v)) = false).
Proof.
  intros Hv. repeat apply conj.
  - by apply model_validate_ints.
  - by apply model_validate_ints.
  - by apply model_validate_ints.
  - intros n p c. by apply model_validate_set_numbers.
  - intros cal prot carb fat. by apply model_validate_set_nutrition.
  - intros name Hname. split; [| intros x Hx].
    + destruct (model_validate (delete name v)) as [r'| |] eqn:E; try done.
      apply model_validate_ints in E as ((? & E1 & _) & (? & E2 & _) & (? & E3 & _)).
      unfold int_fields in Hname.
      repeat (apply elem_of_cons in Hname as [->|Hname];
              [by rewrite lookup_delete_eq in * |]).
      by apply elem_of_nil in Hname.
    + destruct (model_validate (<[name := x]> v)) as [r'| |] eqn:E; try done.
      apply model_validate_ints in E as ((? & E1 & F1) & (? & E2 & F2) & (? & E3 & F3)).
      unfold int_fields in Hname.
      repeat (apply elem_of_cons in Hname as [->|Hname];
              [rewrite lookup_insert_eq in *; simplify_eq;
               by eapply validate_int_never in Hx |]).
      by apply elem_of_nil in Hname.
Qed.

Lemma numeric_fields_typed_not_bounded_witness :
  model_validate (lax := no_coercion)
    (<["servings" := JInt (-2)]>
       (<["prep_time_minutes" := JInt (-1)]>
          (<["cook_time_minutes" := JInt 0]>
             (Examples.recipe (JStr "Easy") (JInt 4)
                [JObj (Examples.step (JStr "Pan"))]))))
    = Ok (set_numbers (-2) (-1) 0 (Examples.cooked 4 Pan)).
Proof.
  assert (model_validate (lax := no_coercion)
            (Examples.recipe (JStr "Easy") (JInt 4)
               [JObj (Examples.step (JStr "Pan"))]) = Ok (Examples.cooked 4 Pan))
    as Hv by (vm_compute; reflexivity).
  exact (proj1 (proj2
    (numeric_fields_typed_not_bounded (H := no_coercion) _ _ Hv)) (-2) (-1) 0).
Defined.

(** ** Serialising and validating again *)

Section RoundTrip.

Context {lax : LaxMode}.

Lemma validate_items_dump {A} (val : json -> outcome A) (dump : A -> json) :
  (forall a, val (dump a) = Ok a) ->
  forall l i, validate_items val i (dump <$> l) = Ok l.
Proof.
  intros Hval. induction l as [|a l IH]; intros i; [done |].
  cbn [fmap list_fmap validate_items]. fold (fmap dump l).
  by rewrite Hval, IH.
Qed.

Lemma validate_Ingredient_dump (i : Ingredient) :
  validate_Ingredient (dump_Ingredient i) = Ok i.
Proof. destruct i as [en nl [q|]]; vm_compute; reflexivity. Qed.

Lemma validate_RecipeStep_dump (s : RecipeStep) :
  validate_RecipeStep (dump_RecipeStep s) = Ok s.
Proof.
  destruct s as [? ? ? ? ? ? w b [t|] f]; destruct w; vm_compute; reflexivity.
Qed.

Lemma validate_difficulty_dump (d : Difficulty) :
  validate_difficulty (JStr (Difficulty_str d)) = Ok d.
Proof. destruct d; vm_compute; reflexivity. Qed.

Lemma model_dump_no_alias (r : SousChefRecipe) (old : string) :
  old ∈ aliases -> model_dump r !! old = None.
Proof.
  intros Hold. vm_compute in Hold.
  repeat (apply elem_of_cons in Hold as [->|Hold]; [vm_compute; reflexivity |]).
  by apply elem_of_nil in Hold.
Qed.

Lemma fix_field_names_model_dump (r : SousChefRecipe) :
  fix_field_names (model_dump r) = model_dump r.
Proof.
  unfold fix_field_names, renames. cbn [foldl]. unfold rename_key.
  repeat (rewrite model_dump_no_alias by (vm_compute; set_solver)).
  reflexivity.
Qed.

(** The keys of a dumped recipe. *)
Lemma model_dump_lookup (r : SousChefRecipe) (k : string) (x : json) :
  (k, x) ∈
    [("generic_name_en", JStr (generic_name_en r));
     ("generic_name_nl", JStr (generic_name_nl r));
     ("recipe_name_en", JStr (recipe_name_en r));
     ("recipe_name_nl", JStr (recipe_name_nl r));
     ("description_en", JStr (description_en r));
     ("description_nl", JStr (description_nl r));
     ("difficulty", JStr (Difficulty_str (difficulty r)));
     ("servings", JInt (servings r));
     ("prep_time_minutes", JInt (prep_time_minutes r));
     ("cook_time_minutes", JInt (cook_time_minutes r));
     ("calories_per_person", dump_optional JInt (calories_per_person r));
     ("protein_g", dump_optional dump_number (protein_g r));
     ("carbs_g", dump_optional dump_number (carbs_g r));
     ("fat_g", dump_optional dump_number (fat_g r));
     ("ingredients", JList (dump_Ingredient <$> ingredients r));
     ("steps", JList (dump_RecipeStep <$> steps r))] ->
  model_dump r !! k = Some x.
Proof.
  intros Hin.
  repeat (apply elem_of_cons in Hin as [Hin|Hin];
          [injection Hin as -> ->; vm_compute; reflexivity |]).
  by apply elem_of_nil in Hin.
Qed.

(** A nutrition value that is dumped and validated again comes back
    as a float. *)
Lemma validate_optional_stored (x : option number) :
  default_or_float x = true ->
  validate_optional validate_number (dump_optional dump_number x)
  = Ok (as_float <$> x).
Proof.
  destruct x as [[n|f]|]; [| done | done].
  intros ->%Z.eqb_eq. vm_compute. reflexivity.
Qed.

Lemma defaulted_number (name : string) (v : gmap string json) (x : option number) :
  defaulted name (Some (PyInt 0)) (validate_optional validate_number) v = Ok x ->
  default_or_float x = true.
Proof.
  unfold defaulted. destruct (v !! name) as [y|]; [| by intros [= <-]].
  intros Hy%at_loc_Ok. unfold validate_optional in Hy.
  destruct y; try (by injection Hy as <-);
    unfold validate_number, Outcome.map, Outcome.bind in Hy;
    by repeat case_match; simplify_eq.
Qed.

(** The nutrition fields of a validated recipe. *)
Lemma validated_numbers (r : SousChefRecipe) :
  validated r ->
  default_or_float (protein_g r) = true /\
  default_or_float (carbs_g r) = true /\
  default_or_float (fat_g r) = true.
Proof.
  intros [v (r0 & Hfields & ->)%model_validate_Ok].
  unfold validate_fields in Hfields. invert_record Hfields.
  repeat match goal with
         | Hf : defaulted _ (Some (PyInt 0)) _ _ = Ok _ |- _ =>
             apply defaulted_number in Hf
         end.
  unfold fix_difficulty_by_steps. by repeat case_match.
Qed.

Lemma validate_fields_model_dump (r : SousChefRecipe) :
  default_or_float (protein_g r) = true ->
  default_or_float (carbs_g r) = true ->
  default_or_float (fat_g r) = true ->
  validate_fields (model_dump r) = Ok (as_floats r).
Proof.
  intros Hp Hc Hf. unfold validate_fields, required, defaulted.
  repeat (erewrite model_dump_lookup by (repeat constructor)).
  cbn [validate_list].
  rewrite (validate_items_dump _ _ validate_Ingredient_dump).
  rewrite (validate_items_dump _ _ validate_RecipeStep_dump).
  rewrite validate_difficulty_dump.
  rewrite validate_optional_int, !validate_optional_stored by done.
  reflexivity.
Qed.

Lemma as_floats_fix_difficulty_by_steps (r : SousChefRecipe) :
  fix_difficulty_by_steps (as_floats (fix_difficulty_by_steps r))
  = as_floats (fix_difficulty_by_steps r).
Proof.
  unfold fix_difficulty_by_steps.
  destruct (Z.of_nat (length (steps r)) <=? 6)%Z eqn:E1;
    [cbn; by rewrite E1 |].
  destruct (Z.of_nat (length (steps r)) <=? 11)%Z eqn:E2;
    cbn; by rewrite E1, E2.
Qed.

(** Dumping a validated recipe and validating the dump gives the recipe
    with floats for the defaults of its nutrition fields. *)
Lemma validated_roundtrip (r : SousChefRecipe) :
  validated r -> model_validate (model_dump r) = Ok (as_floats r).
Proof.
  intros Hr. destruct (validated_numbers r Hr) as (Hp & Hc & Hf).
  destruct Hr as [v (r0 & _ & ->)%model_validate_Ok]. unfold model_validate.
  rewrite fix_field_names_model_dump, validate_fields_model_dump by done.
  cbn [Outcome.map Outcome.bind]. by rewrite as_floats_fix_difficulty_by_steps.
Qed.

End RoundTrip.

(** ** Equal records *)

Lemma eq_optional_refl {A} (eq : A -> A -> bool) (x : option A) :
  (forall a, x = Some a -> eq a a = true) -> eq_optional eq x x = true.
Proof. destruct x; cbn; auto. Qed.

Lemma eq_list_refl {A} (eq : A -> A -> bool) (l : list A) :
  Forall (fun a => eq a a = true) l -> eq_list eq l l = true.
Proof. induction 1; cbn; [done |]. by apply andb_true_intro. Qed.

Lemma eq_Ingredient_refl (i : Ingredient) : eq_Ingredient i i = true.
Proof.
  unfold eq_Ingredient. rewrite !String.eqb_refl, eq_optional_refl; [done |].
  intros. apply String.eqb_refl.
Qed.

Lemma not_nan_eqb (f : float) : is_nan f = false -> PrimFloat.eqb f f = true.
Proof. unfold is_nan. by destruct (PrimFloat.eqb f f). Qed.

Lemma eq_RecipeStep_refl (s : RecipeStep) :
  (forall t, timer_minutes s = Some t -> is_nan t = false) ->
  eq_RecipeStep s s = true.
Proof.
  intros Ht. unfold eq_RecipeStep.
  rewrite !String.eqb_refl, !Bool.eqb_reflx, eq_optional_refl; [done |].
  intros t Hs. by apply not_nan_eqb, Ht.
Qed.

(** A float for the default equals the default. *)
Lemma eq_number_as_float (x : option number) :
  default_or_float x = true ->
  (forall f, float_of x = Some f -> is_nan f = false) ->
  eq_optional eq_number (as_float <$> x) x = true.
Proof.
  destruct x as [[n|f]|]; cbn; [| | done].
  - by intros ->%Z.eqb_eq _.
  - intros _ Hf. by apply not_nan_eqb, Hf.
Qed.

(** Only the defaults are changed. *)
Lemma as_float_fixed (x : option number) :
  default_or_float x = true ->
  as_float <$> x = x <-> x <> Some (PyInt 0).
Proof.
  destruct x as [[n|f]|]; cbn; [| done | done].
  intros ->%Z.eqb_eq. split; [discriminate | done].
Qed.

Lemma as_floats_fixed (r : SousChefRecipe) :
  default_or_float (protein_g r) = true ->
  default_or_float (carbs_g r) = true ->
  default_or_float (fat_g r) = true ->
  as_floats r = r <->
  protein_g r <> Some (PyInt 0) /\ carbs_g r <> Some (PyInt 0) /\
  fat_g r <> Some (PyInt 0).
Proof.
  intros Hp%as_float_fixed Hc%as_float_fixed Hf%as_float_fixed.
  rewrite <- Hp, <- Hc, <- Hf. split.
  - intros Heq.
    pose proof (f_equal protein_g Heq). pose proof (f_equal carbs_g Heq).
    pose proof (f_equal fat_g Heq). done.
  - intros (Ep & Ec & Ef). destruct r. unfold as_floats. cbn in *.
    by rewrite Ep, Ec, Ef.
Qed.

Lemma eq_as_floats (r : SousChefRecipe) :
  default_or_float (protein_g r) = true ->
  default_or_float (carbs_g r) = true ->
  default_or_float (fat_g r) = true ->
  no_nan r ->
  eq_SousChefRecipe (as_floats r) r = true.
Proof.
  intros Hp Hc Hf Hnan. unfold no_nan, floats in Hnan.
  apply Forall_app in Hnan as [Hnum Hsteps].
  rewrite Forall_forall in Hnum. rewrite Forall_forall in Hsteps.
  unfold eq_SousChefRecipe, as_floats.
  cbn [generic_name_en generic_name_nl recipe_name_en recipe_name_nl
       description_en description_nl difficulty servings prep_time_minutes
       cook_time_minutes calories_per_person protein_g carbs_g fat_g
       ingredients steps].
  rewrite !String.eqb_refl, !Z.eqb_refl.
  rewrite (eq_optional_refl Z.eqb) by (intros; apply Z.eqb_refl).
  rewrite !eq_number_as_float; try done.
  - rewrite !eq_list_refl; [done | |].
    + apply Forall_forall. intros s Hs. apply eq_RecipeStep_refl.
      intros t Ht. apply Hsteps, list_elem_of_omap. eauto.
    + apply Forall_forall. intros. apply eq_Ingredient_refl.
  - intros f Hx. apply Hnum, list_elem_of_omap.
    exists (fat_g r). split; [set_solver | done].
  - intros f Hx. apply Hnum, list_elem_of_omap.
    exists (carbs_g r). split; [set_solver | done].
  - intros f Hx. apply Hnum, list_elem_of_omap.
    exists (protein_g r). split; [set_solver | done].
Qed.

(** ** Logs *)

Lemma generations_app (l1 l2 : list event) :
  generations (l1 ++ l2) = (generations l1 + generations l2)%nat.
Proof. unfold generations. by rewrite List.filter_app, length_app. Qed.

Lemma repairs_app (l1 l2 : list event) :
  repairs (l1 ++ l2) = (repairs l1 + repairs l2)%nat.
Proof. unfold repairs. by rewrite List.filter_app, length_app. Qed.

Lemma transforms_app (l1 l2 : list event) :
  transforms (l1 ++ l2) = (transforms l1 + transforms l2)%nat.
Proof. unfold transforms. by rewrite List.filter_app, length_app. Qed.

Lemma last_candidate_app (l1 l2 : list event) :
  last_candidate (l1 ++ l2)
  = match last_candidate l2 with
    | Some r => Some r
    | None => last_candidate l1
    end.
Proof.
  induction l1 as [|e l1 IH]; cbn [app last_candidate].
  - by destruct (last_candidate l2).
  - rewrite IH. by destruct (last_candidate l2).
Qed.

Lemma never_approved_app (l1 l2 : list event) :
  never_approved (l1 ++ l2) <-> never_approved l1 /\ never_approved l2.
Proof. apply Forall_app. Qed.

Lemma no_failure_app (l1 l2 : list event) :
  no_failure (l1 ++ l2) <-> no_failure l1 /\ no_failure l2.
Proof. apply Forall_app. Qed.

(** Read a hypothesis on every event of an explicit log. *)
Ltac log_inv H :=
  unfold no_failure, never_approved in H;
  repeat (let Hhd := fresh "Hhd" in
          apply Forall_cons_1 in H as [Hhd H]; cbn in Hhd).

(** ** Runs of the workflow *)

Section Runs.

Context {lax : LaxMode} (llm : LLM).

Lemma structured_llm_invoke_generation (p : prompt) (log : list event) :
  structured_llm_invoke llm p log
  = (generation llm log p, (log ++ [Generation p (generation llm log p)])%list).
Proof. reflexivity. Qed.

Lemma generation_validated (log : list event) (p : prompt) (r : SousChefRecipe) :
  generation llm log p = Ok r -> validated r.
Proof.
  unfold generation. destruct (generate_json llm log p) as [e|v]; [done |].
  destruct (model_validate v) as [r'| |] eqn:E; intros [= <-]. by exists v.
Qed.

Lemma generation_not_Invalid (log : list event) (p : prompt) (errs : list loc) :
  generation llm log p <> Invalid errs.
Proof.
  unfold generation. destruct (generate_json llm log p) as [e|v]; [done |].
  by destruct (model_validate v).
Qed.

Lemma completion_not_Invalid (log : list event) (p : prompt) (errs : list loc) :
  completion llm log p <> Invalid errs.
Proof. unfold completion. by destruct (complete llm log p). Qed.

Lemma transform_node_spec (state : AgentState) (log : list event) :
  transform_node llm state log
  = match raw_recipe state with
    | None => (Raised (KeyError "raw_recipe"), log)
    | Some raw =>
        let p := transform_prompt raw in
        (Outcome.map
           (fun recipe =>
              {| raw_recipe := None; parsed_recipe := Some recipe;
                 critique := None; final_recipe := None; attempts := Some 0 |})
           (generation llm log p),
         (log ++ [Generation p (generation llm log p)])%list)
    end.
Proof.
  unfold transform_node, mbind, M_bind, and_then, getitem.
  destruct (raw_recipe state) as [raw|]; [| reflexivity]. cbn [ret].
  rewrite structured_llm_invoke_generation.
  by destruct (generation llm log (transform_prompt raw)).
Qed.

Lemma critique_node_spec (state : AgentState) (log : list event) (r : SousChefRecipe) :
  parsed_recipe state = Some r ->
  critique_node llm state log
  = let p := critique_prompt r in
    (Outcome.map
       (fun content =>
          {| raw_recipe := None; parsed_recipe := None;
             critique := Some content; final_recipe := None; attempts := None |})
       (completion llm log p),
     (log ++ [Completion p (completion llm log p)])%list).
Proof.
  intros Hr. unfold critique_node, mbind, M_bind, and_then, getitem.
  rewrite Hr. cbn [ret]. unfold llm_invoke. fold (completion llm log (critique_prompt r)).
  by destruct (completion llm log (critique_prompt r)).
Qed.

Lemma repair_node_spec (state : AgentState) (log : list event)
    (r : SousChefRecipe) (crit : string) :
  parsed_recipe state = Some r -> critique state = Some crit ->
  repair_node llm state log
  = let p := repair_prompt r crit in
    (Outcome.map
       (fun fixed =>
          {| raw_recipe := None; parsed_recipe := Some fixed;
             critique := None; final_recipe := None;
             attempts := Some (default 0 (attempts state) + 1) |})
       (generation llm log p),
     (log ++ [Generation p (generation llm log p)])%list).
Proof.
  intros Hr Hc. unfold repair_node, mbind, M_bind, and_then, getitem.
  rewrite Hr, Hc. cbn [ret]. rewrite structured_llm_invoke_generation.
  by destruct (generation llm log (repair_prompt r crit)).
Qed.

Lemma finalize_node_spec (state : AgentState) (log : list event) (r : SousChefRecipe) :
  parsed_recipe state = Some r ->
  finalize_node state log
  = (Ok {| raw_recipe := None; parsed_recipe := None; critique := None;
           final_recipe := Some r; attempts := None |}, log).
Proof.
  intros Hr. unfold finalize_node, mbind, M_bind, and_then, getitem.
  by rewrite Hr.
Qed.

Lemma run_END (n : nat) (state : AgentState) : run llm n END state = ret state.
Proof. by destruct n. Qed.

Lemma successor_critique (state : AgentState) :
  successor "critique" state = ret (should_repair_or_finalize state).
Proof.
  unfold successor.
  change (assoc "critique" conditional_edges)
    with (Some (should_repair_or_finalize,
                [("repair", "repair"); ("finalize", "finalize")])).
  cbv beta iota. unfold should_repair_or_finalize.
  destruct (contains "APPROVED" _); [reflexivity |].
  destruct (_ >=? 2)%Z; reflexivity.
Qed.

Lemma run_transform (n : nat) (state : AgentState) (log : list event) :
  run llm (S n) "transform" state log
  = match transform_node llm state log with
    | (Ok update, log') => run llm n "critique" (merge state update) log'
    | (Invalid errs, log') => (Invalid errs, log')
    | (Raised e, log') => (Raised e, log')
    end.
Proof. reflexivity. Qed.

Lemma run_critique (n : nat) (state : AgentState) (log : list event) :
  run llm (S n) "critique" state log
  = match critique_node llm state log with
    | (Ok update, log') =>
        run llm n (should_repair_or_finalize (merge state update))
          (merge state update) log'
    | (Invalid errs, log') => (Invalid errs, log')
    | (Raised e, log') => (Raised e, log')
    end.
Proof.
  cbn [run]. change (String.eqb "critique" END) with false. cbv iota.
  change (assoc "critique" (nodes llm)) with (Some (critique_node llm)). cbv iota.
  unfold mbind, M_bind, and_then at 1.
  destruct (critique_node llm state log) as [[update| |] log']; try reflexivity.
  unfold and_then. by rewrite successor_critique.
Qed.

Lemma run_repair (n : nat) (state : AgentState) (log : list event) :
  run llm (S n) "repair" state log
  = match repair_node llm state log with
    | (Ok update, log') => run llm n "critique" (merge state update) log'
    | (Invalid errs, log') => (Invalid errs, log')
    | (Raised e, log') => (Raised e, log')
    end.
Proof. reflexivity. Qed.

Lemma run_finalize (n : nat) (state : AgentState) (log : list event) :
  run llm (S n) "finalize" state log
  = match finalize_node state log with
    | (Ok update, log') => (Ok (merge state update), log')
    | (Invalid errs, log') => (Invalid errs, log')
    | (Raised e, log') => (Raised e, log')
    end.
Proof.
  cbn [run]. change (String.eqb "finalize" END) with false. cbv iota.
  change (assoc "finalize" (nodes llm)) with (Some finalize_node). cbv iota.
  unfold mbind, M_bind, and_then at 1.
  destruct (finalize_node state log) as [[update| |] log']; try reflexivity.
  unfold and_then.
  change (successor "finalize" (merge state update)) with (@ret string END).
  unfold ret at 1. by rewrite run_END.
Qed.

Lemma agent_invoke_transform (input : AgentState) (log : list event) :
  agent_invoke llm input log = run llm recursion_limit "transform" input log.
Proof. reflexivity. Qed.

Lemma finalize_phase (n : nat) (state : AgentState) (log : list event)
    (r : SousChefRecipe) :
  parsed_recipe state = Some r ->
  exists state',
    run llm (S n) "finalize" state log = (Ok state', log) /\
    final_recipe state' = Some r.
Proof.
  intros Hr. rewrite run_finalize, (finalize_node_spec _ _ r Hr). eauto.
Qed.

Lemma critique_loop (d : nat) :
  forall (k m : nat) (state : AgentState) (log : list event)
         (r : SousChefRecipe) res log',
    (k + d = 2)%nat ->
    parsed_recipe state = Some r -> validated r ->
    attempts state = Some (Z.of_nat k) ->
    run llm (2 * d + 2 + m) "critique" state log = (res, log') ->
    exists events, log' = (log ++ events)%list /\ loop_post d r events res.
Proof.
  induction d as [|d IH]; intros k m state log r res log' Hk Hr Hval Hatt Hrun.
  - change (2 * 0 + 2 + m)%nat with (S (S m)) in Hrun.
    rewrite run_critique, (critique_node_spec _ _ r Hr) in Hrun. cbv zeta in Hrun.
    destruct (completion llm log (critique_prompt r)) as [content|errs|e] eqn:Ec;
      [| by apply completion_not_Invalid in Ec |]; cbn [Outcome.map Outcome.bind] in Hrun.
    + assert (should_repair_or_finalize
                (merge state
                   {| raw_recipe := None; parsed_recipe := None;
                      critique := Some content; final_recipe := None;
                      attempts := None |}) = "finalize") as Hroute.
      { unfold should_repair_or_finalize. cbn. rewrite Hatt. cbn.
        destruct (contains "APPROVED" content); [done |].
        assert (k = 2%nat) as -> by lia. done. }
      rewrite Hroute in Hrun.
      edestruct (finalize_phase m) as (state' & Hfin & Hfinal);
        [| rewrite Hfin in Hrun]; [by cbn; rewrite Hr |].
      injection Hrun as <- <-. eexists. split; [done |].
      split_and!; try done.
      intros state'' [= <-]. split_and!; try done.
    + injection Hrun as <- <-. eexists. split; [done |].
      split_and!; try done.
      intros Hfail. by log_inv Hfail.
  - replace (2 * S d + 2 + m)%nat with (S (S (2 * d + 2 + m))) in Hrun by lia.
    rewrite run_critique, (critique_node_spec _ _ r Hr) in Hrun. cbv zeta in Hrun.
    destruct (completion llm log (critique_prompt r)) as [content|errs|e] eqn:Ec;
      [| by apply completion_not_Invalid in Ec |]; cbn [Outcome.map Outcome.bind] in Hrun.
    + set (state1 := merge state _) in Hrun.
      assert (parsed_recipe state1 = Some r) as Hr1 by (by cbn; rewrite Hr).
      destruct (contains "APPROVED" content) eqn:Happ.
      * assert (should_repair_or_finalize state1 = "finalize") as Hroute.
        { unfold should_repair_or_finalize. cbn. by rewrite Happ. }
        rewrite Hroute in Hrun.
        edestruct (finalize_phase (2 * d + 2 + m) state1) as (state' & Hfin & Hfinal);
          [exact Hr1 | rewrite Hfin in Hrun].
        injection Hrun as <- <-. eexists. split; [done |].
        split_and!; try done; [cbn; lia |].
        intros state'' [= <-]. split_and!; try done.
        intros Hnever. log_inv Hnever. congruence.
      * assert (should_repair_or_finalize state1 = "repair") as Hroute.
        { unfold should_repair_or_finalize. cbn. rewrite Happ, Hatt. cbn.
          destruct (Z.geb_spec (Z.of_nat k) 2); [lia | done]. }
        rewrite Hroute in Hrun.
        rewrite run_repair, (repair_node_spec _ _ r content Hr1 eq_refl) in Hrun.
        cbv zeta in Hrun.
        destruct (generation llm _ (repair_prompt r content)) as [fixed|errs|e] eqn:Eg;
          [| by apply generation_not_Invalid in Eg |];
          cbn [Outcome.map Outcome.bind] in Hrun.
        -- set (state2 := merge state1 _) in Hrun.
           apply (IH (S k) m state2 _ fixed) in Hrun
             as (events & -> & Hle & Htr & Hok & Hpost).
           2: lia.
           2: done.
           2: by eapply generation_validated.
           2: { cbn. rewrite Hatt. cbn. f_equal. lia. }
           exists ([Completion (critique_prompt r) (Ok content);
                    Generation (repair_prompt r content) (Ok fixed)] ++ events)%list.
           split; [by rewrite <- !app_assoc |].
           unfold loop_post.
           rewrite repairs_app, transforms_app, generations_app, last_candidate_app.
           split_and!.
           ++ cbn. lia.
           ++ cbn. lia.
           ++ intros [_ Hfail]%no_failure_app. auto.
           ++ intros state' Hres.
              destruct (Hpost state' Hres) as (Hgen & Hfinal & Hvalid & Hnever).
              split_and!.
              ** cbn. lia.
              ** rewrite Hfinal. by destruct (last_candidate events).
              ** by destruct (last_candidate events).
              ** intros [_ Hev]%never_approved_app. cbn. rewrite Hnever; done.
        -- injection Hrun as <- <-.
           exists [Completion (critique_prompt r) (Ok content);
                   Generation (repair_prompt r content) (Raised e)].
           split; [by rewrite <- app_assoc |].
           split_and!; try done; [cbn; lia |].
           intros Hfail. by log_inv Hfail.
    + injection Hrun as <- <-. eexists. split; [done |].
      split_and!; try done; [cbn; lia |].
      intros Hfail. by log_inv Hfail.
Qed.

Lemma agent_invoke_spec (input : AgentState) (log : list event) res log' :
  agent_invoke llm input log = (res, log') ->
  exists events, log' = (log ++ events)%list /\ run_post input events res.
Proof.
  rewrite agent_invoke_transform. unfold recursion_limit.
  rewrite run_transform, transform_node_spec.
  destruct (raw_recipe input) as [raw|] eqn:Hraw.
  2:{ intros [= <- <-]. exists []. split; [by rewrite app_nil_r |].
      repeat split; try done; try (cbn; lia).
      rewrite Hraw. by intros [? ?]. }
  cbv zeta.
  destruct (generation llm log (transform_prompt raw)) as [recipe|errs|e] eqn:Eg;
    [| by apply generation_not_Invalid in Eg |]; cbn [Outcome.map Outcome.bind].
  - set (state1 := merge input _). intros Hrun.
    apply (critique_loop 2 0 18 state1 _ recipe) in Hrun
      as (events & -> & Hle & Htr & Hok & Hpost);
      [| done | done | by eapply generation_validated | done].
    exists (Generation (transform_prompt raw) (Ok recipe) :: events).
    split; [by rewrite <- app_assoc |].
    change (Generation (transform_prompt raw) (Ok recipe) :: events)
      with ([Generation (transform_prompt raw) (Ok recipe)] ++ events)%list.
    unfold run_post.
    rewrite repairs_app, transforms_app, generations_app, last_candidate_app.
    split_and!.
    + cbn. lia.
    + cbn. lia.
    + intros _ [_ Hfail]%no_failure_app. auto.
    + intros state Hres.
      destruct (Hpost state Hres) as (Hgen & Hfinal & Hvalid & Hnever).
      split_and!.
      * cbn. lia.
      * cbn. lia.
      * exists (default recipe (last_candidate events)).
        split_and!; [done | by destruct (last_candidate events) | done].
      * intros [_ Hev]%never_approved_app. cbn. auto.
  - intros [= <- <-]. exists [Generation (transform_prompt raw) (Raised e)].
    split; [done |].
    repeat split; try done; try (cbn; lia).
    intros _ Hfail. by log_inv Hfail.
Qed.

End Runs.

(** ** The bounded loop *)



(** ** Routing *)

Section FirstPass.

Context {lax : LaxMode} (llm : LLM).

(** A transform that succeeds followed by a critique that approves: the
    run ends there. *)
Lemma approved_on_first_pass (input : AgentState) (log : list event)
    (raw content : string) (recipe : SousChefRecipe) :
  raw_recipe input = Some raw ->
  generation llm log (transform_prompt raw) = Ok recipe ->
  completion llm (log ++ [Generation (transform_prompt raw) (Ok recipe)])
    (critique_prompt recipe) = Ok content ->
  contains "APPROVED" content = true ->
  exists state,
    agent_invoke llm input log
    = (Ok state,
       (log ++ [Generation (transform_prompt raw) (Ok recipe);
                Completion (critique_prompt recipe) (Ok content)])%list) /\
    final_recipe state = Some recipe.
Proof.
  intros Hraw Hgen Hcrit Happ.
  rewrite agent_invoke_transform. unfold recursion_limit.
  rewrite run_transform, transform_node_spec, Hraw. cbv zeta.
  rewrite Hgen. cbn [Outcome.map Outcome.bind].
  set (state1 := merge input _).
  rewrite run_critique, (critique_node_spec _ _ _ recipe) by done. cbv zeta.
  rewrite Hcrit. cbn [Outcome.map Outcome.bind].
  set (state2 := merge state1 _).
  assert (should_repair_or_finalize state2 = "finalize") as ->.
  { unfold should_repair_or_finalize. cbn. by rewrite Happ. }
  destruct (finalize_phase llm 22 state2
              ((log ++ [Generation (transform_prompt raw) (Ok recipe)]) ++
               [Completion (critique_prompt recipe) (Ok content)])%list recipe)
    as (state & Hfin & Hfinal); [done |].
  exists state. rewrite Hfin, <- app_assoc. done.
Qed.

End FirstPass.

(** C3. The route after a critique is a function of the critique and of
    the attempt counter of the state (an absent critique is the empty
    string, an absent counter is 0): a critique that contains
    "APPROVED" goes to finalize; otherwise 2 attempts or more go to
    finalize; otherwise the route is repair. The graph follows that
    route from the critique node. With the critique "Everything looks
    great. APPROVED" on the first pass, the run ends with the transform
    and that critique in its log, and so with no repair. *)
Theorem routing_decision `{LaxMode} (llm : LLM) (state : AgentState) :
  let text := default "" (critique state) in
  let count := default 0 (attempts state) in
  ((exists pre post, text = pre ++ "APPROVED" ++ post) ->
     should_repair_or_finalize state = "finalize") /\
  (~ (exists pre post, text = pre ++ "APPROVED" ++ post) -> 2 <= count ->
     should_repair_or_finalize state = "finalize") /\
  (~ (exists pre post, text = pre ++ "APPROVED" ++ post) -> count < 2 ->
     should_repair_or_finalize state = "repair") /\
  successor "critique" state = ret (should_repair_or_finalize state) /\
  (forall input raw recipe,
     raw_recipe input = Some raw ->
     generation llm [] (transform_prompt raw) = Ok recipe ->
     completion llm [Generation (transform_prompt raw) (Ok recipe)]
       (critique_prompt recipe) = Ok "Everything looks great. APPROVED" ->
     repairs (snd (agent_invoke llm input [])) = 0%nat /\
     exists final,
       fst (agent_invoke llm input []) = Ok final /\
       final_recipe final = Some recipe).
Proof.
  intros text count. unfold should_repair_or_finalize. fold text count.
  split_and!.
  - intros Hsub%contains_spec. by rewrite Hsub.
  - intros Hsub Hcount. destruct (contains "APPROVED" text) eqn:E; [done |].
    destruct (Z.geb_spec count 2); [done | lia].
  - intros Hsub Hcount. destruct (contains "APPROVED" text) eqn:E.
    + destruct Hsub. by apply contains_spec.
    + destruct (Z.geb_spec count 2); [lia | done].
  - apply successor_critique.
  - intros input raw recipe Hraw Hgen Hcrit.
    destruct (approved_on_first_pass llm input [] raw
                "Everything looks great. APPROVED" recipe Hraw Hgen Hcrit eq_refl)
      as (final & -> & Hfinal).
    split; [reflexivity | eauto].
Qed.

Lemma routing_decision_witness :
  should_repair_or_finalize
    {| raw_recipe := None; parsed_recipe := None;
       critique := Some "Everything looks great. APPROVED";
       final_recipe := None; attempts := Some 0 |} = "finalize" /\
  should_repair_or_finalize
    {| raw_recipe := None; parsed_recipe := None;
       critique := Some "Timers are missing.";
       final_recipe := None; attempts := Some 2 |} = "finalize" /\
  should_repair_or_finalize
    {| raw_recipe := None; parsed_recipe := None;
       critique := Some "Timers are missing.";
       final_recipe := None; attempts := Some 1 |} = "repair" /\
  repairs (snd (agent_invoke (lax := no_coercion) Oracles.approves_at_once
                  Oracles.input [])) = 0%nat.
Proof.
  assert (forall text, contains "APPROVED" text = false ->
            ~ (exists pre post, text = pre ++ "APPROVED" ++ post)) as Hnot.
  { intros text Hfalse Hsub%contains_spec. congruence. }
  split_and!.
  - destruct (routing_decision (H := no_coercion) Oracles.approves_at_once
                {| raw_recipe := None; parsed_recipe := None;
                   critique := Some "Everything looks great. APPROVED";
                   final_recipe := None; attempts := Some 0 |})
      as (Happroved & _).
    apply Happroved. by exists "Everything looks great. ", "".
  - destruct (routing_decision (H := no_coercion) Oracles.approves_at_once
                {| raw_recipe := None; parsed_recipe := None;
                   critique := Some "Timers are missing.";
                   final_recipe := None; attempts := Some 2 |})
      as (_ & Hcutoff & _).
    apply Hcutoff; [by apply Hnot | cbn; lia].
  - destruct (routing_decision (H := no_coercion) Oracles.approves_at_once
                {| raw_recipe := None; parsed_recipe := None;
                   critique := Some "Timers are missing.";
                   final_recipe := None; attempts := Some 1 |})
      as (_ & _ & Hrepair & _).
    apply Hrepair; [by apply Hnot | cbn; lia].
  - destruct (routing_decision (H := no_coercion) Oracles.approves_at_once
                Oracles.input)
      as (_ & _ & _ & _ & Hrun).
    apply (Hrun Oracles.input "Fry the onion in a wok." (Examples.cooked 4 Stove));
      [reflexivity | vm_compute; reflexivity | reflexivity].
Defined.

(** ** The guard of the page *)

(** C8. With an empty text area the page calls nothing: the log of LLM
    calls is left as it was, so no transform runs, and the page shows
    the warning when the button was pressed (the hint when it was
    not). *)
Theorem empty_input_never_transformed `{LaxMode} (llm : LLM)
    (transform_btn : bool) (log : list event) :
  page llm transform_btn "" log
  = (Ok (if transform_btn
         then st_warning "Please paste a recipe first!"
         else st_info "Paste a recipe on the left and click Transform"),
     log).
Proof. by destruct transform_btn. Qed.

(** By contrast, a recipe text with the button pressed reaches the
    transform. *)
Lemma page_transforms `{LaxMode} (llm : LLM) (recipe_input : string)
    (log : list event) :
  recipe_input <> "" ->
  exists result log',
    snd (page llm true recipe_input log)
    = (log ++ Generation (transform_prompt recipe_input) result :: log')%list.
Proof.
  intros Hne. unfold page.
  destruct (String.eqb_spec recipe_input "") as [|_]; [done |].
  cbn [andb negb]. unfold try_except, mbind, M_bind, and_then at 1.
  rewrite agent_invoke_transform. unfold recursion_limit.
  rewrite run_transform, transform_node_spec. cbn [raw_recipe]. cbv zeta.
  destruct (generation llm log (transform_prompt recipe_input))
    as [recipe|errs|e] eqn:Eg; cbn [Outcome.map Outcome.bind].
  - match goal with
    | |- context [run llm 24 "critique" ?state ?log1] =>
        destruct (run llm 24 "critique" state log1) as [res log'] eqn:Hrun;
        apply (critique_loop llm 2 0 18 state log1 recipe) in Hrun
          as (events & -> & _);
          [| done | done | by eapply generation_validated | done]
    end.
    exists (Ok recipe), events.
    rewrite <- app_assoc.
    destruct res as [state| |]; [| done | done].
    unfold getitem. by destruct (final_recipe state).
  - by apply generation_not_Invalid in Eg.
  - by exists (Raised e), [].
Qed.

(** ** Final recipes *)

Lemma finalized_validated `{LaxMode} (r : SousChefRecipe) :
  finalized r -> validated r.
Proof.
  intros (llm & input & log & Hfinal).
  destruct (agent_invoke llm input log) as [res log'] eqn:Hrun.
  apply agent_invoke_spec in Hrun as (events & _ & _ & _ & _ & Hpost).
  destruct res as [state| |]; [| done | done].
  destruct (Hpost state eq_refl) as (_ & _ & (r' & Hr' & _ & Hvalid) & _).
  cbn in Hfinal. congruence.
Qed.

(** The difficulty of a final recipe follows its steps, whatever the
    LLM wrote in the transform or in a repair. *)
Lemma finalized_difficulty `{LaxMode} (r : SousChefRecipe) :
  finalized r -> difficulty_follows_steps r.
Proof.
  intros [v (r0 & _ & ->)%model_validate_Ok]%finalized_validated.
  apply fix_difficulty_by_steps_spec.
Qed.




(** * Further properties *)

(** ** The calls of a run *)

Section TraceOfRun.

Context {lax : LaxMode} (llm : LLM).

Lemma critique_run_trace (d : nat) :
  forall (k m : nat) (state : AgentState) (log : list event)
         (r : SousChefRecipe) res log',
    (k + d = 2)%nat ->
    parsed_recipe state = Some r ->
    attempts state = Some (Z.of_nat k) ->
    run llm (2 * d + 2 + m) "critique" state log = (res, log') ->
    exists events out,
      log' = (log ++ events)%list /\
      critique_trace llm k r log events out /\ ends_with res out.
Proof.
  induction d as [|d IH]; intros k m state log r res log' Hk Hr Hatt Hrun.
  - change (2 * 0 + 2 + m)%nat with (S (S m)) in Hrun.
    rewrite run_critique, (critique_node_spec _ _ _ r Hr) in Hrun.
    cbv zeta in Hrun.
    destruct (completion llm log (critique_prompt r)) as [content|errs|e] eqn:Ec;
      [| by apply completion_not_Invalid in Ec |];
      cbn [Outcome.map Outcome.bind] in Hrun.
    + set (state1 := merge state _) in Hrun.
      assert (should_repair_or_finalize state1 = "finalize") as Hroute.
      { unfold should_repair_or_finalize. cbn. rewrite Hatt. cbn.
        destruct (contains "APPROVED" content); [done |].
        assert (k = 2%nat) as -> by lia. done. }
      rewrite Hroute in Hrun.
      edestruct (finalize_phase llm m state1) as (state' & Hfin & Hfinal);
        [| rewrite Hfin in Hrun]; [by cbn; rewrite Hr |].
      injection Hrun as <- <-.
      eexists _, (inr r). split; [done |]. split.
      * apply trace_finalize; [done | right; lia].
      * cbn. eauto.
    + injection Hrun as <- <-. eexists _, (inl e). split; [done |].
      split; [by apply trace_critique_raises | done].
  - replace (2 * S d + 2 + m)%nat with (S (S (2 * d + 2 + m))) in Hrun by lia.
    rewrite run_critique, (critique_node_spec _ _ _ r Hr) in Hrun.
    cbv zeta in Hrun.
    destruct (completion llm log (critique_prompt r)) as [content|errs|e] eqn:Ec;
      [| by apply completion_not_Invalid in Ec |];
      cbn [Outcome.map Outcome.bind] in Hrun.
    + set (state1 := merge state _) in Hrun.
      assert (parsed_recipe state1 = Some r) as Hr1 by (by cbn; rewrite Hr).
      destruct (contains "APPROVED" content) eqn:Happ.
      * assert (should_repair_or_finalize state1 = "finalize") as Hroute.
        { unfold should_repair_or_finalize. cbn. by rewrite Happ. }
        rewrite Hroute in Hrun.
        edestruct (finalize_phase llm (2 * d + 2 + m) state1)
          as (state' & Hfin & Hfinal); [exact Hr1 | rewrite Hfin in Hrun].
        injection Hrun as <- <-.
        eexists _, (inr r). split; [done |]. split.
        -- apply trace_finalize; [done | by left].
        -- cbn. eauto.
      * assert (should_repair_or_finalize state1 = "repair") as Hroute.
        { unfold should_repair_or_finalize. cbn. rewrite Happ, Hatt. cbn.
          destruct (Z.geb_spec (Z.of_nat k) 2); [lia | done]. }
        rewrite Hroute in Hrun.
        rewrite run_repair, (repair_node_spec _ _ _ r content Hr1 eq_refl) in Hrun.
        cbv zeta in Hrun.
        destruct (generation llm _ (repair_prompt r content))
          as [fixed|errs|e] eqn:Eg;
          [| by apply generation_not_Invalid in Eg |];
          cbn [Outcome.map Outcome.bind] in Hrun.
        -- set (state2 := merge state1 _) in Hrun.
           apply (IH (S k) m state2 _ fixed) in Hrun
             as (events & out & -> & Htrace & Hends).
           2: lia.
           2: done.
           2: { cbn. rewrite Hatt. cbn. f_equal. lia. }
           eexists (_ :: _ :: events), out. split; [by rewrite <- !app_assoc |].
           split; [| done].
           apply trace_repair; [done | done | lia | done |].
           by rewrite <- app_assoc in Htrace.
        -- injection Hrun as <- <-.
           eexists [_; _], (inl e). split; [by rewrite <- app_assoc |].
           split; [| done]. apply trace_repair_raises; [done | done | lia | done].
    + injection Hrun as <- <-. eexists _, (inl e). split; [done |].
      split; [by apply trace_critique_raises | done].
Qed.

(** Every run follows a trace. *)
Lemma agent_invoke_trace (input : AgentState) (log : list event) res log' :
  agent_invoke llm input log = (res, log') ->
  exists events out,
    log' = (log ++ events)%list /\
    run_trace llm input log events out /\ ends_with res out.
Proof.
  rewrite agent_invoke_transform. unfold recursion_limit.
  rewrite run_transform, transform_node_spec.
  destruct (raw_recipe input) as [raw|] eqn:Hraw.
  2:{ intros [= <- <-]. exists [], (inl (KeyError "raw_recipe")).
      split; [by rewrite app_nil_r |]. split; [by constructor | done]. }
  cbv zeta.
  destruct (generation llm log (transform_prompt raw)) as [recipe|errs|e] eqn:Eg;
    [| by apply generation_not_Invalid in Eg |]; cbn [Outcome.map Outcome.bind].
  - set (state1 := merge input _). intros Hrun.
    apply (critique_run_trace 2 0 18 state1 _ recipe) in Hrun
      as (events & out & -> & Htrace & Hends); [| done | done | done].
    eexists (_ :: events), out. split; [by rewrite <- app_assoc |].
    split; [| done]. by eapply trace_transformed.
  - intros [= <- <-]. eexists [_], (inl e). split; [done |].
    split; [| done]. by eapply trace_transform_raises.
Qed.

End TraceOfRun.

Section TraceProperties.

Context {lax : LaxMode} (llm : LLM).

Lemma calls_left_head (d : nat) :
  exists tail, calls_left d = CritiqueCall :: tail.
Proof. destruct d; eauto. Qed.

Lemma critique_trace_calls k r log events out :
  critique_trace llm k r log events out ->
  call_of <$> events `prefix_of` calls_left (2 - k).
Proof.
  induction 1 as [k r log e Hc|k r log content Hc Hstop
                 |k r log content e Hc Happ Hk Hg
                 |k r log content fixed events out Hc Happ Hk Hg _ IH].
  - destruct (calls_left_head (2 - k)) as [tail ->]. apply prefix_cons, prefix_nil.
  - destruct (calls_left_head (2 - k)) as [tail ->]. apply prefix_cons, prefix_nil.
  - replace (2 - k)%nat with (S (2 - S k)) by lia.
    apply prefix_cons, prefix_cons, prefix_nil.
  - replace (2 - k)%nat with (S (2 - S k)) by lia.
    by apply prefix_cons, prefix_cons.
Qed.

Lemma critique_trace_calls_returned k r log events r' :
  critique_trace llm k r log events (inr r') ->
  call_of <$> events = calls_left (repairs events).
Proof.
  remember (inr r') as out eqn:Hout.
  induction 1 as [k r log e Hc|k r log content Hc Hstop
                 |k r log content e Hc Happ Hk Hg
                 |k r log content fixed events out Hc Happ Hk Hg _ IH];
    try done.
  cbn [fmap list_fmap call_of]. fold (fmap call_of events).
  rewrite (IH Hout). reflexivity.
Qed.

(** Only the last call of a trace can raise or approve. *)
Lemma critique_trace_last k r log events out :
  critique_trace llm k r log events out ->
  exists init e,
    events = (init ++ [e])%list /\ no_failure init /\ never_approved init /\
    match out with
    | inl x => raised_by e = Some x
    | inr _ => raised_by e = None
    end.
Proof.
  induction 1 as [k r log e Hc|k r log content Hc Hstop
                 |k r log content e Hc Happ Hk Hg
                 |k r log content fixed events out Hc Happ Hk Hg _ IH].
  - exists [], (Completion (critique_prompt r) (Raised e)).
    split_and!; [done | constructor | constructor | done].
  - exists [], (Completion (critique_prompt r) (Ok content)).
    split_and!; [done | constructor | constructor | done].
  - exists [Completion (critique_prompt r) (Ok content)],
           (Generation (repair_prompt r content) (Raised e)).
    split_and!; [done | by repeat constructor | | done].
    repeat constructor. done.
  - destruct IH as (init & e & -> & Hfail & Hnever & Hout).
    exists (Completion (critique_prompt r) (Ok content)
            :: Generation (repair_prompt r content) (Ok fixed) :: init), e.
    split_and!; [done | by repeat constructor | | done].
    repeat constructor; done.
Qed.

(** An approving critique ends the trace, with the candidate it
    reviewed. *)
Lemma critique_trace_approved k r log events out init e rest :
  critique_trace llm k r log events out ->
  events = (init ++ e :: rest)%list -> approves e = true ->
  rest = [] /\ out = inr (default r (last_candidate init)).
Proof.
  intros Htrace. revert init.
  induction Htrace as [k r log x Hc|k r log content Hc Hstop
                      |k r log content x Hc Happ Hk Hg
                      |k r log content fixed events out Hc Happ Hk Hg _ IH];
    intros init Hsplit Happroves.
  - destruct init as [|? [|? ?]]; simplify_eq/=.
  - destruct init as [|? [|? ?]]; simplify_eq/=. done.
  - destruct init as [|? [|? [|? ?]]]; simplify_eq/=. congruence.
  - destruct init as [|c [|g init]]; simplify_eq/=; [congruence |].
    destruct (IH init eq_refl Happroves) as [-> ->]. split; [done |].
    f_equal. by destruct (last_candidate init).
Qed.

(** What each call is asked: a critique reviews the latest candidate, a
    repair gets the latest candidate and the latest critique. *)
Lemma critique_trace_prompts k r log events out init e rest :
  critique_trace llm k r log events out ->
  events = (init ++ e :: rest)%list ->
  match e with
  | Completion p _ => p = critique_prompt (default r (last_candidate init))
  | Generation p _ =>
      exists content,
        last_critique init = Some content /\
        p = repair_prompt (default r (last_candidate init)) content
  end.
Proof.
  intros Htrace. revert init.
  induction Htrace as [k r log x Hc|k r log content Hc Hstop
                      |k r log content x Hc Happ Hk Hg
                      |k r log content fixed events out Hc Happ Hk Hg _ IH];
    intros init Hsplit.
  - destruct init as [|? [|? ?]]; simplify_eq/=. done.
  - destruct init as [|? [|? ?]]; simplify_eq/=. done.
  - destruct init as [|? [|? [|? ?]]]; simplify_eq/=; [done | eauto].
  - destruct init as [|c [|g init]]; simplify_eq/=; [done | eauto |].
    specialize (IH init eq_refl).
    destruct e as [p res|p res].
    + destruct IH as (content' & Hlast & ->). exists content'.
      rewrite Hlast. by destruct (last_candidate init).
    + rewrite IH. by destruct (last_candidate init).
Qed.

(** The trace is a function of the counter, the candidate and the log. *)
Lemma critique_trace_functional k r log events1 out1 events2 out2 :
  critique_trace llm k r log events1 out1 ->
  critique_trace llm k r log events2 out2 ->
  events1 = events2 /\ out1 = out2.
Proof.
  intros Htrace. revert events2 out2.
  induction Htrace as [k r log x Hc|k r log content Hc Hstop
                      |k r log content x Hc Happ Hk Hg
                      |k r log content fixed events out Hc Happ Hk Hg _ IH];
    intros events2 out2 Htrace2; inversion Htrace2; subst;
    repeat match goal with
           | H1 : ?a = _, H2 : ?a = _ |- _ => rewrite H1 in H2; simplify_eq
           end;
    try done;
    try (match goal with
         | Hor : _ \/ _ |- _ => destruct Hor; [congruence | lia]
         end).
  match goal with
  | Hrest : critique_trace _ _ _ _ _ _ |- _ =>
      destruct (IH _ _ Hrest) as [-> ->]
  end.
  done.
Qed.

End TraceProperties.

Section RunProperties.

Context {lax : LaxMode} (llm : LLM).

Lemma run_trace_calls input log events out :
  run_trace llm input log events out ->
  call_of <$> events
    `prefix_of` [TransformCall; CritiqueCall; RepairCall;
                 CritiqueCall; RepairCall; CritiqueCall].
Proof.
  destruct 1 as [Hraw|raw e Hraw Hg|raw recipe events out Hraw Hg Htrace].
  - apply prefix_nil.
  - apply prefix_cons, prefix_nil.
  - apply prefix_cons. by apply critique_trace_calls in Htrace.
Qed.

Lemma run_trace_last input log events out :
  run_trace llm input log events out ->
  (raw_recipe input = None /\ events = [] /\ out = inl (KeyError "raw_recipe")) \/
  (exists init e,
     events = (init ++ [e])%list /\ no_failure init /\
     match out with
     | inl x => raised_by e = Some x
     | inr _ => raised_by e = None
     end).
Proof.
  destruct 1 as [Hraw|raw e Hraw Hg|raw recipe events out Hraw Hg Htrace].
  - by left.
  - right. exists [], (Generation (transform_prompt raw) (Raised e)).
    split_and!; [done | constructor | done].
  - right. apply critique_trace_last in Htrace
      as (init & e & -> & Hfail & _ & Hout).
    exists (Generation (transform_prompt raw) (Ok recipe) :: init), e.
    split_and!; [done | by constructor | done].
Qed.

Lemma run_trace_functional input1 input2 log events1 out1 events2 out2 :
  raw_recipe input1 = raw_recipe input2 ->
  run_trace llm input1 log events1 out1 ->
  run_trace llm input2 log events2 out2 ->
  events1 = events2 /\ out1 = out2.
Proof.
  intros Hraw Htrace1 Htrace2.
  destruct Htrace1 as [Hraw1|raw1 e1 Hraw1 Hg1|raw1 r1 ev1 out1 Hraw1 Hg1 Ht1];
    destruct Htrace2 as [Hraw2|raw2 e2 Hraw2 Hg2|raw2 r2 ev2 out2 Hraw2 Hg2 Ht2];
    rewrite Hraw1, Hraw2 in Hraw; simplify_eq; try done;
    rewrite Hg1 in Hg2; simplify_eq; [done |].
  by destruct (critique_trace_functional llm _ _ _ _ _ _ _ Ht1 Ht2) as [-> ->].
Qed.

End RunProperties.

(** X1. The calls of a run come in the order transform, critique,
    repair, critique, repair, critique and stop there at the latest, so
    a run makes at most 6 calls of the LLM; a run that returns made its
    transform and then one critique more than repairs. *)
Theorem calls_in_order `{LaxMode} (llm : LLM) (input : AgentState)
    (res : outcome AgentState) (log : list event) :
  agent_invoke llm input [] = (res, log) ->
  call_of <$> log
    `prefix_of` [TransformCall; CritiqueCall; RepairCall;
                 CritiqueCall; RepairCall; CritiqueCall] /\
  (length log <= 6)%nat /\
  (forall state, res = Ok state ->
     call_of <$> log = TransformCall :: calls_left (repairs log)).
Proof.
  intros (events & out & -> & Htrace & Hends)%agent_invoke_trace.
  rewrite app_nil_l.
  assert (call_of <$> events
            `prefix_of` [TransformCall; CritiqueCall; RepairCall;
                         CritiqueCall; RepairCall; CritiqueCall]) as Hprefix
    by (by eapply run_trace_calls).
  split; [done |]. split.
  - apply prefix_length in Hprefix. by rewrite length_fmap in Hprefix.
  - intros state ->.
    destruct out as [e|r]; [done |].
    inversion Htrace as [|?|raw recipe events' out' Hraw Hg Htrace']; subst.
    cbn [fmap list_fmap call_of]. fold (fmap call_of events'). f_equal.
    by apply critique_trace_calls_returned in Htrace'.
Qed.

Lemma calls_in_order_witness :
  call_of <$> snd (agent_invoke (lax := no_coercion) Oracles.never_approves
                     Oracles.input [])
  = TransformCall :: calls_left 2.
Proof.
  destruct (agent_invoke (lax := no_coercion) Oracles.never_approves
              Oracles.input []) as [res log] eqn:Hrun.
  assert (exists state, res = Ok state /\ repairs log = 2%nat)
    as (state & Hres & Hrep).
  { vm_compute in Hrun. injection Hrun as <- <-. eexists. split; reflexivity. }
  rewrite <- Hrep.
  exact (proj2 (proj2 (calls_in_order (H := no_coercion) _ _ _ _ Hrun)) state Hres).
Defined.



(** X3. A critique that contains "APPROVED" is the last call of its
    run: nothing is repaired or reviewed after it, and the run returns
    the candidate that this critique reviewed. *)
Theorem approval_ends_run `{LaxMode} (llm : LLM) (input : AgentState)
    (res : outcome AgentState) (log init rest : list event) (e : event) :
  agent_invoke llm input [] = (res, log) ->
  log = (init ++ e :: rest)%list -> approves e = true ->
  rest = [] /\
  exists state r,
    res = Ok state /\ final_recipe state = Some r /\
    last_candidate init = Some r.
Proof.
  intros (events & out & -> & Htrace & Hends)%agent_invoke_trace.
  rewrite app_nil_l. intros -> Happroves.
  inversion Htrace as [Hraw Hnil|raw x Hraw Hg Hone
                      |raw recipe events' out' Hraw Hg Htrace' Hcons]; subst.
  - by destruct init.
  - destruct init as [|? [|? ?]]; simplify_eq/=.
  - destruct init as [|g init]; simplify_eq/=.
    destruct (critique_trace_approved llm _ _ _ _ _ _ _ _ Htrace' eq_refl Happroves)
      as [-> ->].
    split; [done |]. destruct Hends as (state & -> & Hfinal).
    exists state, (default recipe (last_candidate init)).
    split_and!; [done | done |]. by destruct (last_candidate init).
Qed.

Lemma approval_ends_run_witness :
  let run := agent_invoke (lax := no_coercion) Oracles.approves_at_once
               Oracles.input [] in
  length (snd run) = 2%nat /\
  exists state, fst run = Ok state /\
                final_recipe state = Some (Examples.cooked 4 Stove).
Proof.
  intros run. destruct run as [res log] eqn:Hrun.
  assert (exists g e rest,
            log = ([g] ++ e :: rest)%list /\ approves e = true /\
            last_candidate [g] = Some (Examples.cooked 4 Stove))
    as (g & e & rest & Hlog & Happ & Hlast).
  { vm_compute in Hrun. injection Hrun as <- <-.
    eexists _, _, _. split_and!; reflexivity. }
  destruct (approval_ends_run (H := no_coercion) _ _ _ _ _ _ _ Hrun Hlog Happ)
    as (-> & state & r & Hres & Hfinal & Hr).
  rewrite Hlog. split; [reflexivity |].
  exists state. cbn [fst]. split; [done |]. congruence.
Defined.

(** X4. Every call works on the latest data: the first call is the
    transform of the raw recipe of the input; a critique is asked about
    the last candidate generated; a repair is given the last candidate
    and the text of the last critique. *)
Theorem calls_use_latest_candidate `{LaxMode} (llm : LLM) (input : AgentState)
    (res : outcome AgentState) (log init rest : list event) (e : event) :
  agent_invoke llm input [] = (res, log) ->
  log = (init ++ e :: rest)%list ->
  match e with
  | Completion p _ =>
      exists r, last_candidate init = Some r /\ p = critique_prompt r
  | Generation p _ =>
      (init = [] /\ exists raw, raw_recipe input = Some raw /\
                                p = transform_prompt raw) \/
      (exists r content,
         last_candidate init = Some r /\ last_critique init = Some content /\
         p = repair_prompt r content)
  end.
Proof.
  intros (events & out & -> & Htrace & Hends)%agent_invoke_trace.
  rewrite app_nil_l. intros ->.
  inversion Htrace as [Hraw Hnil|raw x Hraw Hg Hone
                      |raw recipe events' out' Hraw Hg Htrace' Hcons]; subst.
  - by destruct init.
  - destruct init as [|? [|? ?]]; simplify_eq/=. left. eauto.
  - destruct init as [|g init]; simplify_eq/=; [left; eauto |].
    pose proof (critique_trace_prompts llm _ _ _ _ _ _ _ _ Htrace' eq_refl)
      as Hprompt.
    destruct e as [p result|p result].
    + right. destruct Hprompt as (content & Hcrit & ->).
      exists (default recipe (last_candidate init)), content.
      rewrite Hcrit. by destruct (last_candidate init).
    + exists (default recipe (last_candidate init)).
      by destruct (last_candidate init).
Qed.

Lemma calls_use_latest_candidate_witness :
  exists init p result rest,
    snd (agent_invoke (lax := no_coercion) Oracles.never_approves
           Oracles.input [])
    = (init ++ Generation p result :: rest)%list /\
    p = repair_prompt (Examples.cooked 4 Stove) "Timers are missing.".
Proof.
  destruct (agent_invoke (lax := no_coercion) Oracles.never_approves
              Oracles.input []) as [res log] eqn:Hrun.
  assert (exists g c p result rest,
            log = ([g; c] ++ Generation p result :: rest)%list /\
            last_candidate [g; c] = Some (Examples.cooked 4 Stove) /\
            last_critique [g; c] = Some "Timers are missing.")
    as (g & c & p & result & rest & Hlog & Hcand & Hcrit).
  { vm_compute in Hrun. injection Hrun as <- <-.
    eexists _, _, _, _, _. split_and!; reflexivity. }
  exists [g; c], p, result, rest. cbn [snd]. split; [exact Hlog |].
  destruct (calls_use_latest_candidate (H := no_coercion) _ _ _ _ _ _ _ Hrun Hlog)
    as [[? _]|(r & content & Hr & Hc & ->)]; [done |].
  congruence.
Defined.

(** X5. A run depends on its input through the raw recipe only: the
    transform resets the candidate and the attempt counter, and the
    critique and the final recipe are written before they are read, so
    two inputs with the same raw recipe give the same calls and the same
    final recipe (or the same exception). *)
Theorem stale_keys_ignored `{LaxMode} (llm : LLM) (input1 input2 : AgentState)
    (log : list event) res1 log1 res2 log2 :
  raw_recipe input1 = raw_recipe input2 ->
  agent_invoke llm input1 log = (res1, log1) ->
  agent_invoke llm input2 log = (res2, log2) ->
  log1 = log2 /\
  Outcome.map final_recipe res1 = Outcome.map final_recipe res2.
Proof.
  intros Hraw (events1 & out1 & -> & Htrace1 & Hends1)%agent_invoke_trace
              (events2 & out2 & -> & Htrace2 & Hends2)%agent_invoke_trace.
  destruct (run_trace_functional llm _ _ _ _ _ _ _ Hraw Htrace1 Htrace2)
    as [-> ->].
  split; [done |]. destruct out2 as [e|r]; cbn in Hends1, Hends2.
  - by rewrite Hends1, Hends2.
  - destruct Hends1 as (state1 & -> & Hfinal1), Hends2 as (state2 & -> & Hfinal2).
    cbn. by rewrite Hfinal1, Hfinal2.
Qed.

Lemma stale_keys_ignored_witness :
  snd (agent_invoke (lax := no_coercion) Oracles.never_approves
         Faults.stale_input [])
  = snd (agent_invoke (lax := no_coercion) Oracles.never_approves
           Oracles.input []).
Proof.
  symmetry.
  exact (proj1 (stale_keys_ignored (H := no_coercion) Oracles.never_approves
                  Oracles.input Faults.stale_input [] _ _ _ _ eq_refl
                  (surjective_pairing _) (surjective_pairing _))).
Defined.

(** ** What the page shows *)

Lemma enumerate_lookup {A} (l : list A) (start : Z) (n : nat) :
  enumerate start l !! n = (fun a => (start + Z.of_nat n, a)) <$> l !! n.
Proof.
  revert start n. induction l as [|a l IH]; intros start n; [done |].
  destruct n as [|n]; cbn [enumerate].
  - cbn. by rewrite Z.add_0_r.
  - rewrite !lookup_cons. rewrite IH. destruct (l !! n); [| done].
    cbn. do 2 f_equal. lia.
Qed.

Lemma length_enumerate {A} (l : list A) (start : Z) :
  length (enumerate start l) = length l.
Proof.
  revert start. induction l as [|a l IH]; intros start; [done |].
  cbn. by rewrite IH.
Qed.

Lemma timer_shown_raises (step : RecipeStep) (e : exception) :
  timer_shown step = inl e -> bad_timer step e.
Proof.
  unfold timer_shown, bad_timer, int_of_float.
  destruct (has_timer step); [| discriminate].
  destruct (timer_minutes step) as [t|]; [| discriminate].
  destruct (float_truth t) eqn:Htruth; [| discriminate].
  destruct (is_nan t) eqn:Hnan.
  - intros Heq. injection Heq as <-. split; [reflexivity |].
    exists t. split; [reflexivity |]. split; [exact Htruth |].
    left. split; [exact Hnan | reflexivity].
  - destruct (is_infinity t) eqn:Hinf; [| discriminate].
    intros Heq. injection Heq as <-. split; [reflexivity |].
    exists t. split; [reflexivity |]. split; [exact Htruth |].
    right. split; [exact Hnan |]. split; [exact Hinf | reflexivity].
Qed.

Lemma timer_shown_returns (step : RecipeStep) (minutes : option Z) :
  timer_shown step = inr minutes ->
  minutes = match timer_minutes step with
            | Some t =>
                if has_timer step && negb (PrimFloat.eqb t 0)
                then Some (truncate t) else None
            | None => None
            end.
Proof.
  unfold timer_shown, int_of_float, float_truth.
  destruct (has_timer step), (timer_minutes step) as [t|]; cbn [andb];
    try (by intros [= <-]).
  destruct (negb (PrimFloat.eqb t 0)); [| by intros [= <-]].
  destruct (is_nan t); [discriminate |].
  destruct (is_infinity t); [discriminate |]. by intros [= <-].
Qed.

(** The expanders of the loop are those of the first steps, in order;
    the loop stops before the first step whose title raises. *)
Lemma st_expanders_spec (l : list (Z * RecipeStep)) :
  Forall2 shows (fst (st_expanders l)) (take (length (fst (st_expanders l))) l) /\
  match snd (st_expanders l) with
  | None => length (fst (st_expanders l)) = length l
  | Some e =>
      exists numbered, l !! length (fst (st_expanders l)) = Some numbered /\
                       bad_timer (snd numbered) e
  end.
Proof.
  induction l as [|[i step] l [IH1 IH2]]; [by split; [constructor |] |].
  cbn [st_expanders].
  destruct (timer_shown step) as [e|minutes] eqn:Hshown.
  - split; [constructor |]. exists (i, step). split; [done |].
    by apply timer_shown_raises.
  - destruct (st_expanders l) as [shown failure]. cbn [fst snd] in *.
    cbn [length take]. apply timer_shown_returns in Hshown.
    split; [by constructor |].
    destruct failure; [done | by f_equal].
Qed.


(** X19. A run that returns a recipe whose step has a timer of
    infinitely many minutes ends on the page with the recipe and, under
    it, an error in place of its step and of the download buttons; with
    NaN minutes the error is another; with 45 minutes the step is shown
    with its 45 minutes and the buttons follow. *)
Lemma page_closes_with_error :
  (Outcome.is_ok (fst (agent_invoke (lax := no_coercion) (Faults.timed infinity)
                         (initial_state "Boil for ever.") [])) = true /\
   fst (page (lax := no_coercion) (Faults.timed infinity) true "Boil for ever." [])
   = Ok (st_recipe (Faults.cooked_timed infinity) [] (inl OverflowError))) /\
  fst (page (lax := no_coercion) (Faults.timed nan) true "Boil." [])
  = Ok (st_recipe (Faults.cooked_timed nan) [] (inl ValueError)) /\
  fst (page (lax := no_coercion) (Faults.timed 45.5) true "Boil." [])
  = Ok (st_recipe (Faults.cooked_timed 45.5)
          [{| expander_number := 1;
              expander_step := set_timer true (Some 45.5%float)
                                 (Examples.cooked_step Stove);
              expander_minutes := Some 45 |}]
          (inr (downloads_of (Faults.cooked_timed 45.5)))).
Proof. split_and!; vm_compute; reflexivity. Qed.

(** ** Vocabularies *)

Lemma assoc_Workplace (s : string) (w : Workplace) :
  assoc s Workplace_values = Some w -> s = Workplace_str w.
Proof.
  unfold Workplace_values. cbn [assoc].
  repeat match goal with
         | |- context [String.eqb s ?word] =>
             destruct (String.eqb_spec s word) as [->|_]; [by intros [= <-] |]
         end.
  done.
Qed.

Lemma assoc_Difficulty (s : string) (d : Difficulty) :
  assoc s Difficulty_values = Some d -> s = Difficulty_str d.
Proof.
  unfold Difficulty_values. cbn [assoc].
  repeat match goal with
         | |- context [String.eqb s ?word] =>
             destruct (String.eqb_spec s word) as [->|_]; [by intros [= <-] |]
         end.
  done.
Qed.

Lemma assoc_Workplace_str (w : Workplace) :
  assoc (Workplace_str w) Workplace_values = Some w.
Proof. by destruct w. Qed.

Lemma assoc_Difficulty_str (d : Difficulty) :
  assoc (Difficulty_str d) Difficulty_values = Some d.
Proof. by destruct d. Qed.

Lemma difficulty_targets_in_enum (k t : string) :
  difficulty_mapping !! k = Some t -> is_Some (assoc t Difficulty_values).
Proof. intros H. unfold difficulty_mapping in H. table_cases H; by eexists. Qed.

(** What a remapping followed by a [Literal] accepts. *)
Lemma remapped_literal_accepts {A} (mapping : gmap string string)
    (values : list (string * A)) (x : json) :
  (forall k t, mapping !! k = Some t -> is_Some (assoc t values)) ->
  Outcome.is_ok (get_or_self mapping x >>= validate_literal values) = true
  <-> in_vocabulary values x \/ in_table mapping x.
Proof.
  intros Htargets. destruct x as [| | | |s| |]; cbn;
    try (split; [done | by intros [(? & ? & _)|(? & ? & _)]]).
  destruct (mapping !! s) as [t|] eqn:Hs; cbn.
  - destruct (Htargets _ _ Hs) as [a ->]. split; [| done].
    intros _. right. exists s. by rewrite Hs.
  - destruct (assoc s values) as [a|] eqn:Ha; cbn.
    + split; [| done]. intros _. left. exists s. by rewrite Ha.
    + split; [done |].
      intros [(s' & [= <-] & [a Ha'])|(s' & [= <-] & [t Ht])]; congruence.
Qed.

(** X7. A workplace is accepted exactly when it is a string that is one
    of the six words or one of the seventeen synonyms, and a difficulty
    exactly when it is one of the three words or one of the five
    synonyms; a synonym is validated as the word its table gives, which
    is always a word of the vocabulary. *)
Theorem accepted_vocabulary :
  (forall x,
     Outcome.is_ok (validate_workplace x) = true
     <-> in_vocabulary Workplace_values x \/ in_table workplace_mapping x) /\
  (forall x,
     Outcome.is_ok (validate_difficulty x) = true
     <-> in_vocabulary Difficulty_values x \/ in_table difficulty_mapping x) /\
  (forall k t, workplace_mapping !! k = Some t ->
     exists w, validate_workplace (JStr k) = Ok w /\ Workplace_str w = t) /\
  (forall k t, difficulty_mapping !! k = Some t ->
     exists d, validate_difficulty (JStr k) = Ok d /\ Difficulty_str d = t).
Proof.
  split_and!.
  - intros x. apply remapped_literal_accepts, workplace_targets_in_enum.
  - intros x. apply remapped_literal_accepts, difficulty_targets_in_enum.
  - intros k t Hk. unfold validate_workplace, fix_workplace, get_or_self.
    rewrite Hk. cbn [Outcome.bind validate_literal].
    destruct (workplace_targets_in_enum _ _ Hk) as [w Hw]. rewrite Hw.
    exists w. split; [done |]. symmetry. by apply assoc_Workplace.
  - intros k t Hk. unfold validate_difficulty, fix_difficulty, get_or_self.
    rewrite Hk. cbn [Outcome.bind validate_literal].
    destruct (difficulty_targets_in_enum _ _ Hk) as [d Hd]. rewrite Hd.
    exists d. split; [done |]. symmetry. by apply assoc_Difficulty.
Qed.

Lemma accepted_vocabulary_witness :
  exists w, validate_workplace (JStr "Kitchen counter") = Ok w /\
            Workplace_str w = "Cutting board".
Proof.
  exact (proj1 (proj2 (proj2 accepted_vocabulary))
           "Kitchen counter" "Cutting board" eq_refl).
Defined.

(** ** The alias pass as a whole *)

Lemma alias_canonical (old : string) :
  old ∈ aliases -> exists new, (old, new) ∈ renames /\ new ∈ canonicals.
Proof.
  unfold canonicals, aliases. intros ([old' new] & -> & Hin)%list_elem_of_fmap.
  exists new. split; [done |]. apply list_elem_of_fmap. by exists (old', new).
Qed.

(** X8. The alias pass is idempotent: a mapping that went through it is
    left as it is by a second pass. *)
Theorem fix_field_names_idempotent (v : gmap string json) :
  fix_field_names (fix_field_names v) = fix_field_names v.
Proof.
  apply map_eq. intros k.
  destruct (fix_field_names_lookup v) as [Hpair Hother].
  destruct (fix_field_names_lookup (fix_field_names v)) as [Hpair' Hother'].
  destruct (decide (k ∈ canonicals)) as [Hcan|Hcan].
  - apply canonical_alias in Hcan as (old & Hin & _).
    destruct (Hpair' old k Hin) as [-> _].
    destruct (Hpair old k Hin) as [Hnew Hold]. rewrite Hnew, Hold.
    by destruct (v !! k), (v !! old).
  - destruct (decide (k ∈ aliases)) as [Hal|Hal].
    + apply alias_canonical in Hal as (new & Hin & _).
      destruct (Hpair' k new Hin) as [_ ->].
      destruct (Hpair k new Hin) as [Hnew Hold]. rewrite Hnew, Hold.
      by destruct (v !! new), (v !! k).
    + by rewrite Hother'.
Qed.

Lemma rename_key_size (v : gmap string json) (r : string * string) :
  size (rename_key v r) = size v.
Proof.
  destruct r as [old new]. unfold rename_key.
  destruct (v !! old) as [x|] eqn:Hold; [| done].
  destruct (v !! new) as [y|] eqn:Hnew; [done |].
  assert (old <> new) by congruence.
  rewrite map_size_insert_None by (by rewrite lookup_delete_ne).
  rewrite map_size_delete_Some by eauto.
  assert (size v <> 0%nat) by (by eapply map_size_ne_0_lookup_2).
  lia.
Qed.

(** X9. The alias pass moves keys and drops none: the mapping has as
    many keys after the pass as before. *)
Theorem fix_field_names_size (v : gmap string json) :
  size (fix_field_names v) = size v.
Proof.
  unfold fix_field_names. generalize renames. intros l. revert v.
  induction l as [|r l IH]; intros v; [done |].
  cbn [foldl]. by rewrite IH, rename_key_size.
Qed.

(** ** Records as a whole *)

Ltac field_name :=
  first [ by apply list_elem_of_here | apply list_elem_of_further; field_name ].

(** Refute the membership [H] of a string in a list of other strings. *)
Ltac not_member H :=
  vm_compute in H;
  repeat (apply elem_of_cons in H as [H|H]; [discriminate |]);
  by apply elem_of_nil in H.

Section Records.

Context {lax : LaxMode}.

Lemma rejected_ap_l {A B} (l : loc) (f : outcome (A -> B)) (x : outcome A) :
  rejected_at l f -> rejected_at l (f <*> x).
Proof.
  destruct f as [g|errs1|e], x as [a|errs2|e']; cbn; try done.
  intros Hin. apply elem_of_app. by left.
Qed.

Lemma rejected_ap_r {A B} (l : loc) (f : outcome (A -> B)) (x : outcome A) :
  rejected_at l x -> rejected_at l (f <*> x).
Proof.
  destruct f as [g|errs1|e], x as [a|errs2|e']; cbn; try done.
  intros Hin. apply elem_of_app. by right.
Qed.

Lemma rejected_required {A} (name : string) (val : json -> outcome A)
    (v : gmap string json) :
  v !! name = None -> rejected_at [Key name] (required name val v).
Proof. intros Hv. rewrite required_missing by done. apply list_elem_of_here. Qed.

Lemma rejected_map {A B} (l : loc) (g : A -> B) (x : outcome A) :
  rejected_at l x -> rejected_at l (Outcome.map g x).
Proof. by destruct x. Qed.

Lemma same_failure_refl {A} (x : outcome A) : same_failure x x.
Proof. by destruct x. Qed.

Lemma same_failure_ap {A B A' B'} (f : outcome (A -> B)) (g : outcome (A' -> B'))
    (x : outcome A) (y : outcome A') :
  same_failure f g -> same_failure x y -> same_failure (f <*> x) (g <*> y).
Proof.
  destruct f, g, x, y; cbn; try done; congruence.
Qed.

Lemma validate_items_Forall2 {A} (val : json -> outcome A) (l : list json) :
  forall i l', validate_items val i l = Ok l' ->
               Forall2 (fun x a => val x = Ok a) l l'.
Proof.
  induction l as [|x l IH]; intros i l' Hl; cbn [validate_items] in Hl.
  - injection Hl as <-. constructor.
  - apply ap_Ok in Hl as (g & tail & Hl & Htail & ->).
    apply ap_Ok in Hl as (g' & a & Hg & Ha & ->). injection Hg as <-.
    apply at_loc_Ok in Ha. constructor; [done | by eapply IH].
Qed.

Lemma validate_list_Forall2 {A} (val : json -> outcome A) (x : json) (l' : list A) :
  validate_list val x = Ok l' ->
  exists l, x = JList l /\ Forall2 (fun x a => val x = Ok a) l l'.
Proof.
  destruct x as [| | | | |l|]; try done. cbn [validate_list].
  intros Hl%validate_items_Forall2. eauto.
Qed.

(** The fields are read under their own names. *)
Lemma validate_fields_own_keys (v1 v2 : gmap string json) :
  (forall k, k ∈ field_names -> v1 !! k = v2 !! k) ->
  validate_fields v1 = validate_fields v2.
Proof.
  intros Hsame. unfold validate_fields.
  repeat match goal with
         | |- context [required ?name ?val v1] =>
             rewrite (required_ext name val v1 v2) by (apply Hsame; field_name)
         | |- context [defaulted ?name ?d ?val v1] =>
             rewrite (defaulted_ext name d val v1 v2) by (apply Hsame; field_name)
         end.
  reflexivity.
Qed.

Lemma field_names_not_aliases (k : string) : k ∈ field_names -> k ∉ aliases.
Proof.
  intros Hk Hal. unfold field_names in Hk.
  repeat (apply elem_of_cons in Hk as [->|Hk]; [by not_member Hal |]).
  by apply elem_of_nil in Hk.
Qed.

Lemma model_validate_insert_unknown (v : gmap string json) (k : string) (x : json) :
  k ∉ field_names -> k ∉ aliases ->
  model_validate (<[k := x]> v) = model_validate v.
Proof.
  intros Hfield Halias. unfold model_validate. f_equal.
  apply validate_fields_own_keys. intros j Hj.
  rewrite (fix_field_names_insert v k x Halias j (field_names_not_aliases j Hj)).
  apply lookup_insert_ne. congruence.
Qed.

End Records.

(** X10. A required field that is missing is reported: for each of the
    twelve fields without a default, a raw record that lacks the key is
    not accepted, and the validation error lists that key (unless a
    [TypeError] of a synonym lookup escaped first). *)
Theorem missing_field_reported `{LaxMode} (v : gmap string json) (name : string) :
  name ∈ required_fields -> v !! name = None ->
  rejected_at [Key name] (model_validate v).
Proof.
  intros Hname Hmissing.
  assert (fix_field_names v !! name = None) as Hfix.
  { destruct (fix_field_names_lookup v) as [_ Hother].
    rewrite Hother; [done | |]; intros Hin; unfold required_fields in Hname;
      repeat (apply elem_of_cons in Hname as [->|Hname]; [by not_member Hin |]);
      by apply elem_of_nil in Hname. }
  clear Hmissing. unfold model_validate. apply rejected_map.
  unfold validate_fields, required_fields in *.
  repeat (apply elem_of_cons in Hname as [->|Hname];
          [repeat first
             [ apply rejected_ap_r, rejected_required; exact Hfix
             | apply rejected_ap_l ] |]).
  exfalso. by eapply elem_of_nil.
Qed.

Lemma missing_field_reported_witness :
  rejected_at [Key "steps"]
    (model_validate (lax := no_coercion)
       (delete "steps" (Examples.recipe (JStr "Easy") (JInt 4) []))).
Proof.
  assert ("steps" ∈ required_fields) as Hname
    by (unfold required_fields; field_name).
  exact (missing_field_reported (H := no_coercion)
           (delete "steps" (Examples.recipe (JStr "Easy") (JInt 4) []))
           "steps" Hname (lookup_delete_eq _ _)).
Defined.

(** X11. Keys that the schema does not know are ignored: setting or
    removing a key that is neither a field name nor an alias changes
    nothing in the result of validation. *)
Theorem unknown_keys_ignored `{LaxMode} (v : gmap string json) (k : string) :
  k ∉ field_names -> k ∉ aliases ->
  (forall x, model_validate (<[k := x]> v) = model_validate v) /\
  model_validate (delete k v) = model_validate v.
Proof.
  intros Hfield Halias. split.
  - intros x. by apply model_validate_insert_unknown.
  - destruct (v !! k) as [x|] eqn:Hk.
    + rewrite <- (insert_delete_id v k x Hk) at 2.
      symmetry. by apply model_validate_insert_unknown.
    + by rewrite delete_id.
Qed.

Lemma unknown_keys_ignored_witness :
  model_validate (lax := no_coercion)
    (<["notes" := JStr "serve hot"]>
       (Examples.recipe (JStr "Easy") (JInt 4) []))
  = model_validate (lax := no_coercion)
      (Examples.recipe (JStr "Easy") (JInt 4) []).
Proof.
  assert ("notes" ∉ field_names) as Hfield by (intros Hin; not_member Hin).
  assert ("notes" ∉ aliases) as Halias by (intros Hin; not_member Hin).
  exact (proj1 (unknown_keys_ignored (H := no_coercion)
                  (Examples.recipe (JStr "Easy") (JInt 4) []) "notes"
                  Hfield Halias) (JStr "serve hot")).
Defined.

(** X12. The steps and the ingredients of a validated recipe are the
    raw steps and the raw ingredients, validated one by one and kept in
    their order: validation neither drops, adds nor reorders a step, so
    the number of steps that sets the difficulty is the number of raw
    steps. *)
Theorem steps_validated_in_order `{LaxMode}
    (v : gmap string json) (r : SousChefRecipe) :
  model_validate v = Ok r ->
  exists raw_steps raw_ingredients,
    v !! "steps" = Some (JList raw_steps) /\
    Forall2 (fun x s => validate_RecipeStep x = Ok s) raw_steps (steps r) /\
    length (steps r) = length raw_steps /\
    v !! "ingredients" = Some (JList raw_ingredients) /\
    Forall2 (fun x i => validate_Ingredient x = Ok i)
      raw_ingredients (ingredients r).
Proof.
  intros (r0 & Hfields & ->)%model_validate_Ok.
  destruct (fix_field_names_lookup v) as [_ Hother].
  unfold validate_fields in Hfields. invert_record Hfields.
  repeat match goal with
         | Hf : required _ (validate_list _) _ = Ok _ |- _ =>
             apply required_Ok in Hf as (? & Hf & (? & -> & ?)%validate_list_Forall2);
             rewrite Hother in Hf by (let Hin := fresh in intros Hin; not_member Hin)
         end.
  rewrite steps_fix_difficulty_by_steps.
  assert (forall d, ingredients (fix_difficulty_by_steps d) = ingredients d) as ->
    by (intros d; unfold fix_difficulty_by_steps; by repeat case_match).
  cbn [steps ingredients]. eexists _, _. split_and!; try done.
  symmetry. by eapply Forall2_length.
Qed.

Lemma steps_validated_in_order_witness :
  exists raw_steps,
    Examples.recipe (JStr "Hard") (JInt 4) [JObj (Examples.step (JStr "Wok"))]
      !! "steps" = Some (JList raw_steps) /\
    length (steps (Examples.cooked 4 Stove)) = length raw_steps.
Proof.
  assert (model_validate (lax := no_coercion)
            (Examples.recipe (JStr "Hard") (JInt 4)
               [JObj (Examples.step (JStr "Wok"))]) = Ok (Examples.cooked 4 Stove))
    as Hv by (vm_compute; reflexivity).
  destruct (steps_validated_in_order (H := no_coercion) _ _ Hv)
    as (raw_steps & _ & Hsteps & _ & Hlen & _).
  eauto.
Defined.

(** ** The difficulty of the raw record *)

(** X13. The difficulty of the raw record is checked although it is
    replaced afterwards: a record whose difficulty is neither one of
    the three words nor one of the five synonyms is not accepted,
    whatever its steps. *)
Theorem unknown_difficulty_rejected `{LaxMode} (v : gmap string json) (x : json) :
  v !! "difficulty" = Some x ->
  ~ in_vocabulary Difficulty_values x -> ~ in_table difficulty_mapping x ->
  Outcome.is_ok (model_validate v) = false.
Proof.
  intros Hx Hvoc Htable.
  destruct (model_validate v) as [r| |] eqn:E; try done. exfalso.
  apply model_validate_Ok in E as (r0 & Hfields & _).
  destruct (fix_field_names_lookup v) as [_ Hother].
  unfold validate_fields in Hfields. invert_record Hfields.
  match goal with
  | Hd : required "difficulty" _ _ = Ok _ |- _ =>
      apply required_Ok in Hd as (raw & Hraw & Hvalid);
      rewrite Hother in Hraw by (let Hin := fresh in intros Hin; not_member Hin)
  end.
  rewrite Hx in Hraw. injection Hraw as <-.
  assert (Outcome.is_ok (validate_difficulty x) = true) as Hok
    by (by rewrite Hvalid).
  apply remapped_literal_accepts in Hok as [?|?]; [done | done |].
  apply difficulty_targets_in_enum.
Qed.

Lemma unknown_difficulty_rejected_witness :
  Outcome.is_ok
    (model_validate (lax := no_coercion)
       (Examples.recipe (JStr "Tricky") (JInt 4) [])) = false.
Proof.
  assert (~ in_vocabulary Difficulty_values (JStr "Tricky")) as Hvoc
    by (by intros (s & [= <-] & [d Hd])).
  assert (~ in_table difficulty_mapping (JStr "Tricky")) as Htable
    by (by intros (s & [= <-] & [t Ht])).
  exact (unknown_difficulty_rejected (H := no_coercion)
           (Examples.recipe (JStr "Tricky") (JInt 4) []) (JStr "Tricky")
           eq_refl Hvoc Htable).
Defined.

(** X14. Which accepted difficulty the raw record carries makes no
    difference: two records that differ only in an accepted difficulty
    validate to the same recipe, or fail with the same errors. *)
Theorem supplied_difficulty_irrelevant `{LaxMode} (v : gmap string json)
    (x1 x2 : json) (d1 d2 : Difficulty) :
  validate_difficulty x1 = Ok d1 -> validate_difficulty x2 = Ok d2 ->
  model_validate (<["difficulty" := x1]> v)
  = model_validate (<["difficulty" := x2]> v).
Proof.
  intros H1 H2. unfold model_validate.
  pose proof (fix_field_names_inserts v [("difficulty", x1)]
    ltac:(repeat constructor; let Hin := fresh in intros Hin; not_member Hin))
    as Hagree1.
  pose proof (fix_field_names_inserts v [("difficulty", x2)]
    ltac:(repeat constructor; let Hin := fresh in intros Hin; not_member Hin))
    as Hagree2.
  cbn [foldr fst snd] in Hagree1, Hagree2.
  rewrite (validate_fields_agree _ _ Hagree1), (validate_fields_agree _ _ Hagree2).
  set (w := fix_field_names v).
  assert (same_failure (validate_fields (<["difficulty" := x1]> w))
                       (validate_fields (<["difficulty" := x2]> w))) as Hsame.
  { unfold validate_fields. field_lookups. rewrite H1, H2.
    repeat apply same_failure_ap; try apply same_failure_refl; done. }
  destruct (validate_fields (<["difficulty" := x1]> w)) as [r1|errs1|e1] eqn:E1,
           (validate_fields (<["difficulty" := x2]> w)) as [r2|errs2|e2] eqn:E2;
    cbn in Hsame; try done; try congruence.
  unfold validate_fields in E1, E2. revert E1 E2. field_lookups.
  rewrite H1, H2. intros E1 E2. invert_record E1. invert_record E2.
  repeat match goal with
         | Ha : ?f = Ok ?a, Hb : ?f = Ok ?b |- _ =>
             rewrite Ha in Hb; injection Hb as <-
         end.
  cbn. reflexivity.
Qed.

Lemma supplied_difficulty_irrelevant_witness :
  model_validate (lax := no_coercion)
    (<["difficulty" := JStr "Advanced"]>
       (Examples.recipe (JStr "Hard") (JInt 4) []))
  = model_validate (lax := no_coercion)
      (<["difficulty" := JStr "Easy"]>
         (Examples.recipe (JStr "Hard") (JInt 4) [])).
Proof.
  exact (supplied_difficulty_irrelevant (H := no_coercion)
           (Examples.recipe (JStr "Hard") (JInt 4) [])
           (JStr "Advanced") (JStr "Easy") Intermediate Easy eq_refl eq_refl).
Defined.

(** ** Ingredients *)

(** X15. The quantity of an ingredient is optional in two ways: in a
    raw ingredient that validates, the key can be left out, and the
    quantity is then "to taste"; it can be null, and the ingredient then
    has no quantity; or it can be any text, which is kept. *)
Theorem quantity_defaults_to_taste `{LaxMode}
    (v : gmap string json) (i : Ingredient) :
  validate_Ingredient (JObj v) = Ok i ->
  validate_Ingredient (JObj (delete "quantity" v))
    = Ok (set_quantity (Some "to taste") i) /\
  validate_Ingredient (JObj (<["quantity" := JNull]> v))
    = Ok (set_quantity None i) /\
  forall q : string,
    validate_Ingredient (JObj (<["quantity" := JStr q]> v))
      = Ok (set_quantity (Some q) i).
Proof.
  intros Hv. unfold validate_Ingredient in *. invert_record Hv.
  split_and!; [| | intros q]; field_lookups; rewrite_fields; reflexivity.
Qed.

Lemma quantity_defaults_to_taste_witness :
  validate_Ingredient (lax := no_coercion)
    (JObj (delete "quantity"
             (<["name_en" := JStr "Salt"]> (<["name_nl" := JStr "Zout"]> ∅))))
  = Ok {| name_en := "Salt"; name_nl := "Zout"; quantity := Some "to taste" |}.
Proof.
  exact (proj1 (quantity_defaults_to_taste (H := no_coercion)
                  (<["name_en" := JStr "Salt"]> (<["name_nl" := JStr "Zout"]> ∅))
                  {| name_en := "Salt"; name_nl := "Zout";
                     quantity := Some "to taste" |} eq_refl)).
Defined.

(** ** The exports *)

Lemma contains_char (c : ascii) (s : string) :
  contains (String c "") s = true <-> exists pre post, s = pre ++ String c post.
Proof. apply contains_spec. Qed.

Lemma contains_char_cons (c a : ascii) (s : string) :
  contains (String c "") (String a s)
  = if Ascii.eqb a c then true else contains (String c "") s.
Proof.
  cbn [contains String.prefix].
  destruct (ascii_dec c a) as [->|Hne].
  - rewrite Ascii.eqb_refl. by destruct s.
  - destruct (Ascii.eqb_spec a c) as [->|_]; done.
Qed.

Lemma contains_char_app (c : ascii) (s t : string) :
  contains (String c "") (s ++ t)
  = contains (String c "") s || contains (String c "") t.
Proof.
  induction s as [|a s IH]; [by destruct t |].
  rewrite append_cons, !contains_char_cons, IH. by destruct (Ascii.eqb a c).
Qed.

Lemma lower_char_not_upper (c : ascii) : is_upper (lower_char c) = false.
Proof.
  unfold lower_char, is_upper.
  destruct ((65 <=? nat_of_ascii c)%nat && (nat_of_ascii c <=? 90)%nat) eqn:E;
    [| done].
  apply andb_true_iff in E as [H65%Nat.leb_le H90%Nat.leb_le].
  rewrite nat_ascii_embedding by lia.
  apply andb_false_iff. right. apply Nat.leb_gt. lia.
Qed.

Lemma lower_char_space (c : ascii) :
  lower_char c = " "%char <-> c = " "%char.
Proof.
  unfold lower_char.
  destruct ((65 <=? nat_of_ascii c)%nat && (nat_of_ascii c <=? 90)%nat) eqn:E;
    [| done].
  apply andb_true_iff in E as [H65%Nat.leb_le H90%Nat.leb_le].
  split.
  - intros Heq. apply (f_equal nat_of_ascii) in Heq.
    rewrite nat_ascii_embedding in Heq by lia.
    change (nat_of_ascii " ") with 32%nat in Heq. lia.
  - intros ->. change (nat_of_ascii " ") with 32%nat in H65. lia.
Qed.

Lemma file_stem_chars (name : string) (c : ascii) :
  c = " "%char \/ is_upper c = true ->
  contains (String c "") (replace_char " "%char "_"%char (lower name)) = false.
Proof.
  intros Hc. induction name as [|a name IH]; [done |].
  cbn [lower replace_char]. rewrite contains_char_cons, IH.
  destruct (Ascii.eqb_spec (lower_char a) " "%char) as [Hspace|Hspace].
  - destruct (Ascii.eqb_spec "_"%char c) as [<-|_]; [| done].
    by destruct Hc.
  - destruct (Ascii.eqb_spec (lower_char a) c) as [<-|_]; [| done].
    destruct Hc as [Hc|Hc]; [done |]. by rewrite lower_char_not_upper in Hc.
Qed.

Lemma file_stem_length (name : string) :
  String.length (replace_char " "%char "_"%char (lower name)) = String.length name.
Proof. induction name as [|a name IH]; [done |]. cbn. by rewrite IH. Qed.

Lemma length_append (s t : string) :
  String.length (s ++ t) = (String.length s + String.length t)%nat.
Proof. induction s as [|a s IH]; [done |]. rewrite append_cons. cbn. by rewrite IH. Qed.

(** X16. For a recipe whose generic English name is ASCII text, the
    names of the two download files contain no space and no capital
    letter; they are the name, as long as it was, followed by [.json]
    and [.csv]. *)
Theorem file_names_without_spaces (recipe : SousChefRecipe) (c : ascii) :
  is_ascii (generic_name_en recipe) = true ->
  c = " "%char \/ is_upper c = true ->
  contains (String c "") (json_file_name recipe) = false /\
  contains (String c "") (csv_file_name recipe) = false /\
  String.length (json_file_name recipe)
    = (String.length (generic_name_en recipe) + 5)%nat /\
  String.length (csv_file_name recipe)
    = (String.length (generic_name_en recipe) + 4)%nat.
Proof.
  intros _ Hc. unfold json_file_name, csv_file_name, file_stem.
  rewrite !contains_char_app, !length_append, !file_stem_length,
    !(file_stem_chars _ c Hc).
  split_and!; try done.
  - destruct Hc as [->|Hc]; [done |].
    rewrite !contains_char_cons.
    repeat match goal with
           | |- context [Ascii.eqb ?a c] =>
               destruct (Ascii.eqb_spec a c) as [<-|_]; [by cbn in Hc |]
           end.
    done.
  - destruct Hc as [->|Hc]; [done |].
    rewrite !contains_char_cons.
    repeat match goal with
           | |- context [Ascii.eqb ?a c] =>
               destruct (Ascii.eqb_spec a c) as [<-|_]; [by cbn in Hc |]
           end.
    done.
Qed.

Lemma file_names_without_spaces_witness :
  contains " " (json_file_name (Examples.cooked 4 Pan)) = false /\
  json_file_name (Examples.cooked 4 Pan) = "chicken_rice.json".
Proof.
  split; [| reflexivity].
  exact (proj1 (file_names_without_spaces (Examples.cooked 4 Pan) " "%char
                  eq_refl (or_introl eq_refl))).
Defined.



(** ** What a run returns *)

(** X18. Whatever the input state carried, the final recipe of a run
    that returns is an output of validation, namely the last candidate
    the LLM generated in this run, and so its difficulty follows the
    number of its steps. *)
Theorem final_recipe_is_validated `{LaxMode} (llm : LLM) (input state : AgentState)
    (log log' : list event) :
  agent_invoke llm input log = (Ok state, log') ->
  exists r v,
    final_recipe state = Some r /\ model_validate v = Ok r /\
    ((length (steps r) <= 6)%nat -> difficulty r = Easy) /\
    ((7 <= length (steps r) <= 11)%nat -> difficulty r = Medium) /\
    ((12 <= length (steps r))%nat -> difficulty r = Intermediate).
Proof.
  intros (events & -> & _ & _ & _ & Hpost)%agent_invoke_spec.
  destruct (Hpost state eq_refl) as (_ & _ & (r & Hfinal & _ & [v Hv]) & _).
  exists r, v. split; [done |]. split; [done |].
  apply model_validate_Ok in Hv as (r0 & _ & ->).
  apply fix_difficulty_by_steps_spec.
Qed.

Lemma final_recipe_is_validated_witness :
  exists state r,
    fst (agent_invoke (lax := no_coercion) Oracles.never_approves
           Faults.stale_input []) = Ok state /\
    final_recipe state = Some r /\ difficulty r = Easy.
Proof.
  destruct (agent_invoke (lax := no_coercion) Oracles.never_approves
              Faults.stale_input []) as [res log'] eqn:Hrun.
  assert (exists state, res = Ok state /\
            final_recipe state = Some (Examples.cooked 4 Stove))
    as (state & -> & Hfinal).
  { vm_compute in Hrun. injection Hrun as <- _. by eexists. }
  destruct (final_recipe_is_validated (H := no_coercion) _ _ _ _ _ Hrun)
    as (r & v & Hr & _ & Heasy & _).
  exists state, r. split_and!; [done | done |].
  apply Heasy. rewrite Hfinal in Hr. injection Hr as <-. cbn. lia.
Defined.
